(** * libbitcoin-network: session registration sequence and message subscriber

    A shallow embedding of [src/sessions/session.cpp] and
    [src/message_subscriber.cpp].

    The session code is a cascade of continuations: every asynchronous
    collaborator (channel, version protocol, pending table, peer store)
    takes a completion handler built with [BIND_n].  The bound handlers are
    represented here as first-order closures ([result_handler]), the
    collaborators record the handler they were given as an outstanding
    request, and the environment completes requests in any order it likes.
    Every call that leaves the session is written to a journal, so that
    ordering properties can be read off it. *)

From Stdlib Require Import ZArith List Bool String Lia.
From stdpp Require Import base option list.

Set Default Proof Using "Type".

(** ** Error codes (bc::error) *)

(** The enumerators the two files name, and [other_error] for every code
    that originates in the transport or in a decoder. *)
Inductive code : Set :=
| success
| service_stopped
| operation_failed
| not_found
| accept_failed
| other_error (value : nat).

(** [if (ec)]: the boolean conversion of an error code. *)
Definition is_error (ec : code) : bool :=
  match ec with
  | success => false
  | _ => true
  end.

Module session.

(** ** Data *)

(** A [channel::ptr] is a shared pointer: an address in the channel heap. *)
Abbreviation channel_ptr := nat.

Abbreviation authority := string.

(** The two fields of the peer's version message that the session reads. *)
Record version := Version {
  value : Z;
  nonce : Z
}.

(** Handlers produced by [BIND_n(method, ...)], with the bound arguments;
    [_1] is the argument supplied at invocation.  [user_handler] is a
    callback supplied by the caller of the session. *)
Inductive result_handler : Set :=
| user_handler (id : nat)
| bind_do_stop_session
| bind_do_remove (channel : channel_ptr) (handle_stopped : result_handler)
| bind_handle_start (channel : channel_ptr)
    (handle_started handle_stopped : result_handler)
| bind_do_unpend (channel : channel_ptr) (handle_started : result_handler)
| bind_handle_pend (channel : channel_ptr) (handle_started : result_handler)
| bind_handle_channel_start (channel : channel_ptr)
    (handle_started : result_handler)
| bind_handle_handshake (channel : channel_ptr)
    (handle_started : result_handler)
| bind_handle_unpend
| bind_handle_remove.

Inductive truth_handler : Set :=
| bind_handle_is_pending (channel : channel_ptr)
    (handle_started : result_handler).

(** Modelled from the spec: the channel contract (channel.hpp and proxy.hpp
    are not in src).  Observable attributes [authority], [version], mutable
    [nonce] and [notify]; a channel can be stopped with a code and keeps the
    handlers subscribed to its stop event. *)
Record channel := Channel {
  chan_authority : authority;
  chan_nonce : Z;
  chan_notify : bool;
  chan_version : version;
  chan_stopped : option code;
  chan_stop_subscribers : list result_handler
}.

(** Modelled from the spec: the settings snapshot (settings.hpp is not in
    src), "at minimum a list blacklists of peer authorities and a
    peer_minimum_version threshold". *)
Record settings := Settings {
  blacklists : list authority;
  settings_peer_minimum_version : Z
}.

(** Calls still awaiting completion, each with the handler it was given. *)
Inductive request : Set :=
| req_pending_store (channel : channel_ptr) (handler : result_handler)
| req_pending_exists (version_nonce : Z) (handler : truth_handler)
| req_pending_remove (channel : channel_ptr) (handler : result_handler)
| req_channel_start (channel : channel_ptr) (handler : result_handler)
| req_protocol_version_start (channel : channel_ptr)
    (handler : result_handler)
| req_network_store (channel : channel_ptr) (handler : result_handler)
| req_network_remove (channel : channel_ptr) (handler : result_handler).

Inductive log_entry : Set :=
| log_handshake_failure (peer : authority) (ec : code)
| log_loopback (peer : authority)
| log_version_below_minimum (peer_version minimum : Z) (peer : authority)
| log_unpend_failure (ec : code)
| log_remove_failure (ec : code).

(** What the session does to the outside, in the order it does it. *)
Inductive event : Set :=
| ev_handler (id : nat) (ec : code)
| ev_log_debug (entry : log_entry)
| ev_set_notify (channel : channel_ptr) (notify : bool)
| ev_set_nonce (channel : channel_ptr) (n : Z)
| ev_channel_start (channel : channel_ptr)
| ev_channel_stop (channel : channel_ptr) (ec : code)
| ev_channel_subscribe_stop (channel : channel_ptr)
    (handler : result_handler)
| ev_attach_protocol_version (channel : channel_ptr)
| ev_pending_store (channel : channel_ptr)
| ev_pending_exists (version_nonce : Z)
| ev_pending_remove (channel : channel_ptr)
| ev_network_store (channel : channel_ptr)
| ev_network_remove (channel : channel_ptr)
| ev_network_subscribe_stop (handler : result_handler).

(** The session's members ([stopped_], [incoming_], [notify_],
    [settings_], [pending_]) and the part of the network they act on. *)
Record world := World {
  stopped_ : bool;
  incoming_ : bool;
  notify_ : bool;
  settings_ : settings;
  pending_ : list channel_ptr;
  heap : list channel;
  connections : list channel_ptr;
  stop_subscribers : list result_handler;
  outstanding : list request;
  entropy : list Z;
  journal : list event
}.

Definition set_stopped_ (b : bool) (w : world) : world :=
  World b (incoming_ w) (notify_ w) (settings_ w) (pending_ w) (heap w)
    (connections w) (stop_subscribers w) (outstanding w) (entropy w)
    (journal w).

Definition set_settings_ (s : settings) (w : world) : world :=
  World (stopped_ w) (incoming_ w) (notify_ w) s (pending_ w) (heap w)
    (connections w) (stop_subscribers w) (outstanding w) (entropy w)
    (journal w).

Definition set_pending_ (p : list channel_ptr) (w : world) : world :=
  World (stopped_ w) (incoming_ w) (notify_ w) (settings_ w) p (heap w)
    (connections w) (stop_subscribers w) (outstanding w) (entropy w)
    (journal w).

Definition set_heap (h : list channel) (w : world) : world :=
  World (stopped_ w) (incoming_ w) (notify_ w) (settings_ w) (pending_ w) h
    (connections w) (stop_subscribers w) (outstanding w) (entropy w)
    (journal w).

Definition set_connections (c : list channel_ptr) (w : world) : world :=
  World (stopped_ w) (incoming_ w) (notify_ w) (settings_ w) (pending_ w)
    (heap w) c (stop_subscribers w) (outstanding w) (entropy w) (journal w).

Definition set_stop_subscribers (s : list result_handler) (w : world)
  : world :=
  World (stopped_ w) (incoming_ w) (notify_ w) (settings_ w) (pending_ w)
    (heap w) (connections w) s (outstanding w) (entropy w) (journal w).

Definition set_outstanding (o : list request) (w : world) : world :=
  World (stopped_ w) (incoming_ w) (notify_ w) (settings_ w) (pending_ w)
    (heap w) (connections w) (stop_subscribers w) o (entropy w) (journal w).

Definition set_entropy (e : list Z) (w : world) : world :=
  World (stopped_ w) (incoming_ w) (notify_ w) (settings_ w) (pending_ w)
    (heap w) (connections w) (stop_subscribers w) (outstanding w) e
    (journal w).

Definition set_journal (j : list event) (w : world) : world :=
  World (stopped_ w) (incoming_ w) (notify_ w) (settings_ w) (pending_ w)
    (heap w) (connections w) (stop_subscribers w) (outstanding w)
    (entropy w) j.

(** ** The state monad the methods run in *)

Definition M (A : Type) : Type := world → A * world.

Global Instance M_ret : MRet M := λ A x w, (x, w).
Global Instance M_bind : MBind M :=
  λ A B f m w, let '(x, w') := m w in f x w'.

Definition gets {A} (f : world → A) : M A := λ w, (f w, w).
Definition modify (f : world → world) : M unit := λ w, (tt, f w).
Definition skip : M unit := mret tt.

(** The world a command leaves behind. *)
Definition exec {A} (m : M A) (w : world) : world := (m w).2.

(** The journal is kept newest first; [emit] adds one entry. *)
Definition emit (e : event) : M unit :=
  modify (λ w, set_journal (e :: journal w) w).

Definition post (r : request) : M unit :=
  modify (λ w, set_outstanding (outstanding w ++ [r]) w).

(** ** Collaborators *)

Definition blank_channel : channel :=
  Channel EmptyString 0%Z false (Version 0%Z 0%Z) None [].

Definition channel_at (ch : channel_ptr) : M channel :=
  gets (λ w, default blank_channel (heap w !! ch)).

Definition update_channel (ch : channel_ptr) (f : channel → channel)
  : M unit :=
  modify (λ w, set_heap (alter f ch (heap w)) w).

Definition channel_set_notify (ch : channel_ptr) (b : bool) : M unit :=
  emit (ev_set_notify ch b);;
  update_channel ch (λ c, Channel (chan_authority c) (chan_nonce c) b
    (chan_version c) (chan_stopped c) (chan_stop_subscribers c)).

Definition channel_set_nonce (ch : channel_ptr) (n : Z) : M unit :=
  emit (ev_set_nonce ch n);;
  update_channel ch (λ c, Channel (chan_authority c) n (chan_notify c)
    (chan_version c) (chan_stopped c) (chan_stop_subscribers c)).

Definition channel_set_version (ch : channel_ptr) (v : version) : M unit :=
  update_channel ch (λ c, Channel (chan_authority c) (chan_nonce c)
    (chan_notify c) v (chan_stopped c) (chan_stop_subscribers c)).

Definition channel_authority (ch : channel_ptr) : M authority :=
  c ← channel_at ch; mret (chan_authority c).

Definition channel_version (ch : channel_ptr) : M version :=
  c ← channel_at ch; mret (chan_version c).

(** [channel->start(handler)] *)
Definition channel_start (ch : channel_ptr) (handler : result_handler)
  : M unit :=
  emit (ev_channel_start ch);;
  post (req_channel_start ch handler).

(** [channel->stop(ec)]: the first stop code sticks. *)
Definition channel_stop (ch : channel_ptr) (ec : code) : M unit :=
  emit (ev_channel_stop ch ec);;
  update_channel ch (λ c, Channel (chan_authority c) (chan_nonce c)
    (chan_notify c) (chan_version c)
    (match chan_stopped c with Some e => Some e | None => Some ec end)
    (chan_stop_subscribers c)).

(** [channel->subscribe_stop(handler)] *)
Definition channel_subscribe_stop (ch : channel_ptr)
  (handler : result_handler) : M unit :=
  emit (ev_channel_subscribe_stop ch handler);;
  update_channel ch (λ c, Channel (chan_authority c) (chan_nonce c)
    (chan_notify c) (chan_version c) (chan_stopped c)
    (chan_stop_subscribers c ++ [handler])).

(** [attach<protocol_version>(channel)->start(handler)] *)
Definition attach_protocol_version_start (ch : channel_ptr)
  (handler : result_handler) : M unit :=
  emit (ev_attach_protocol_version ch);;
  post (req_protocol_version_start ch handler).

Definition pending_store (ch : channel_ptr) (handler : result_handler)
  : M unit :=
  emit (ev_pending_store ch);;
  post (req_pending_store ch handler).

Definition pending_exists (version_nonce : Z) (handler : truth_handler)
  : M unit :=
  emit (ev_pending_exists version_nonce);;
  post (req_pending_exists version_nonce handler).

Definition pending_remove (ch : channel_ptr) (handler : result_handler)
  : M unit :=
  emit (ev_pending_remove ch);;
  post (req_pending_remove ch handler).

Definition network_store (ch : channel_ptr) (handler : result_handler)
  : M unit :=
  emit (ev_network_store ch);;
  post (req_network_store ch handler).

Definition network_remove (ch : channel_ptr) (handler : result_handler)
  : M unit :=
  emit (ev_network_remove ch);;
  post (req_network_remove ch handler).

Definition network_subscribe_stop (handler : result_handler) : M unit :=
  emit (ev_network_subscribe_stop handler);;
  modify (λ w, set_stop_subscribers (stop_subscribers w ++ [handler]) w).

Definition log_debug (entry : log_entry) : M unit :=
  emit (ev_log_debug entry).

(** Modelled from the spec: [nonzero_pseudo_random] (libbitcoin, not in
    src) yields a nonzero 64-bit number; the raw randomness is drawn from
    the world's entropy. *)
Definition nonzero_pseudo_random : M Z :=
  λ w, match entropy w with
       | [] => (1%Z, w)
       | x :: rest => ((1 + x mod (2 ^ 64 - 1))%Z, set_entropy rest w)
       end.

(** ** session.cpp *)

(** [session::session(network, outgoing, persistent)], with the parts of
    the network the session will act on. *)
Definition construct (network_settings : settings)
  (outgoing persistent : bool) (channels : list channel)
  (pending : list channel_ptr) (randomness : list Z) : world :=
  World true (negb outgoing) persistent network_settings pending channels
    [] [] [] randomness [].

Section methods.

(** [bc::peer_minimum_version], a constant of the libbitcoin library. *)
Variable peer_minimum_version : Z.

Section bodies.

(** Invocation of a bound handler; tied to [invoke] below. *)
Variable call : result_handler → code → M unit.

Definition stopped : M bool := gets stopped_.

Definition subscribe_stop (handler : result_handler) : M unit :=
  network_subscribe_stop handler.

Definition blacklisted (peer : authority) : M bool :=
  gets (λ w, existsb (String.eqb peer) (blacklists (settings_ w))).

Definition start (handler : result_handler) : M unit :=
  s ← stopped;
  if negb s then
    call handler operation_failed
  else
    modify (set_stopped_ false);;
    subscribe_stop bind_do_stop_session;;
    call handler success.

Definition do_stop_session (_ : code) : M unit :=
  modify (set_stopped_ true).

Definition handle_start (ec : code) (channel : channel_ptr)
  (handle_started handle_stopped : result_handler) : M unit :=
  (* Must either stop or subscribe the channel for stop before returning. *)
  (if is_error ec then
     channel_stop channel ec
   else
     channel_subscribe_stop channel handle_stopped);;
  (* This is the end of the registration sequence. *)
  call handle_started ec.

Definition handle_is_pending (pending : bool) (channel : channel_ptr)
  (handle_started : result_handler) : M unit :=
  if pending then
    peer ← channel_authority channel;
    log_debug (log_loopback peer);;
    call handle_started accept_failed
  else
    version ← channel_version channel;
    if (value version <? peer_minimum_version)%Z then
      peer ← channel_authority channel;
      log_debug
        (log_version_below_minimum (value version) peer_minimum_version peer);;
      call handle_started accept_failed
    else
      network_store channel handle_started.

Definition call_truth (handler : truth_handler) (pending : bool) : M unit :=
  match handler with
  | bind_handle_is_pending channel handle_started =>
      handle_is_pending pending channel handle_started
  end.

Definition handle_handshake (ec : code) (channel : channel_ptr)
  (handle_started : result_handler) : M unit :=
  if is_error ec then
    peer ← channel_authority channel;
    log_debug (log_handshake_failure peer ec);;
    call handle_started ec
  else
    let handler := bind_handle_is_pending channel handle_started in
    (* The loopback test is for incoming channels only. *)
    inc ← gets incoming_;
    if (inc : bool) then
      version ← channel_version channel;
      pending_exists (nonce version) handler
    else
      call_truth handler false.

Definition handle_channel_start (ec : code) (channel : channel_ptr)
  (handle_started : result_handler) : M unit :=
  attach_protocol_version_start channel
    (bind_handle_handshake channel handle_started).

Definition handle_pend (ec : code) (channel : channel_ptr)
  (handle_started : result_handler) : M unit :=
  if is_error ec then
    call handle_started ec
  else
    (* The channel starts, invokes the handler, then starts the read cycle. *)
    channel_start channel (bind_handle_channel_start channel handle_started).

Definition handle_unpend (ec : code) : M unit :=
  if is_error ec then log_debug (log_unpend_failure ec) else skip.

Definition handle_remove (ec : code) : M unit :=
  if is_error ec then log_debug (log_remove_failure ec) else skip.

Definition do_unpend (ec : code) (channel : channel_ptr)
  (handle_started : result_handler) : M unit :=
  channel_set_nonce channel 0%Z;;
  pending_remove channel bind_handle_unpend;;
  call handle_started ec.

Definition do_remove (ec : code) (channel : channel_ptr)
  (handle_stopped : result_handler) : M unit :=
  network_remove channel bind_handle_remove;;
  call handle_stopped ec.

Definition register_channel (channel : channel_ptr)
  (handle_started handle_stopped : result_handler) : M unit :=
  let stop_handler := bind_do_remove channel handle_stopped in
  let start_handler :=
    bind_handle_start channel handle_started stop_handler in
  s ← stopped;
  if (s : bool) then
    call start_handler service_stopped
  else
    inc ← gets incoming_;
    if (inc : bool) then
      handle_pend success channel start_handler
    else
      n ← gets notify_;
      channel_set_notify channel n;;
      r ← nonzero_pseudo_random;
      channel_set_nonce channel r;;
      let unpend_handler := bind_do_unpend channel start_handler in
      pending_store channel (bind_handle_pend channel unpend_handler).

End bodies.

(** A bound handler runs the method it was bound to; a handler of the
    caller is only recorded. *)
Fixpoint invoke (handler : result_handler) (ec : code) : M unit :=
  match handler with
  | user_handler id => emit (ev_handler id ec)
  | bind_do_stop_session => do_stop_session ec
  | bind_do_remove channel handle_stopped =>
      do_remove invoke ec channel handle_stopped
  | bind_handle_start channel handle_started handle_stopped =>
      handle_start invoke ec channel handle_started handle_stopped
  | bind_do_unpend channel handle_started =>
      do_unpend invoke ec channel handle_started
  | bind_handle_pend channel handle_started =>
      handle_pend invoke ec channel handle_started
  | bind_handle_channel_start channel handle_started =>
      handle_channel_start ec channel handle_started
  | bind_handle_handshake channel handle_started =>
      handle_handshake invoke ec channel handle_started
  | bind_handle_unpend => handle_unpend ec
  | bind_handle_remove => handle_remove ec
  end.

(** ** The environment

    Modelled from the spec: the pending table (section 4.C), the peer store
    of the network, the version protocol and the stop events of channel and
    network (pending_channels, p2p, protocol_version and proxy are not in
    src).  A completion delivers the outcome chosen by the environment to
    the recorded handler; [exists] answers from the table's contents. *)

Definition pending_has (version_nonce : Z) (w : world) : bool :=
  existsb
    (λ ch, (chan_nonce (default blank_channel (heap w !! ch)) =? version_nonce)%Z)
    (pending_ w).

Definition take_request (i : nat) : M (option request) :=
  λ w, (outstanding w !! i, set_outstanding (delete i (outstanding w)) w).

Definition without (ch : channel_ptr) (l : list channel_ptr)
  : list channel_ptr :=
  filter (λ c, c ≠ ch) l.

Definition respond (r : request) (ec : code) (v : version) : M unit :=
  match r with
  | req_pending_store ch handler =>
      (if is_error ec then skip
       else modify (λ w, set_pending_ (pending_ w ++ [ch]) w));;
      invoke handler ec
  | req_pending_exists version_nonce handler =>
      found ← gets (pending_has version_nonce);
      call_truth invoke handler found
  | req_pending_remove ch handler =>
      modify (λ w, set_pending_ (without ch (pending_ w)) w);;
      invoke handler ec
  | req_channel_start ch handler =>
      invoke handler ec
  | req_protocol_version_start ch handler =>
      (if is_error ec then skip else channel_set_version ch v);;
      invoke handler ec
  | req_network_store ch handler =>
      (if is_error ec then skip
       else modify (λ w, set_connections (connections w ++ [ch]) w));;
      invoke handler ec
  | req_network_remove ch handler =>
      modify (λ w, set_connections (without ch (connections w)) w);;
      invoke handler ec
  end.

(** The [i]-th outstanding request completes with code [ec]; a completed
    handshake has populated the channel's version with [v]. *)
Definition complete (i : nat) (ec : code) (v : version) : M unit :=
  r ← take_request i;
  match r with
  | Some r => respond r ec v
  | None => skip
  end.

Fixpoint invoke_all (handlers : list result_handler) (ec : code) : M unit :=
  match handlers with
  | [] => skip
  | handler :: rest => invoke handler ec;; invoke_all rest ec
  end.

(** The channel's stop event fires: its subscribers are notified once. *)
Definition channel_fire_stop (ch : channel_ptr) (ec : code) : M unit :=
  c ← channel_at ch;
  update_channel ch (λ c, Channel (chan_authority c) (chan_nonce c)
    (chan_notify c) (chan_version c) (chan_stopped c) []);;
  invoke_all (chan_stop_subscribers c) ec.

(** The network's stop event fires. *)
Definition network_fire_stop (ec : code) : M unit :=
  handlers ← gets stop_subscribers;
  modify (set_stop_subscribers []);;
  invoke_all handlers ec.

Inductive action : Set :=
| act_start (handler : result_handler)
| act_register_channel (channel : channel_ptr)
    (handle_started handle_stopped : result_handler)
| act_complete (i : nat) (ec : code) (v : version)
| act_channel_stopped (channel : channel_ptr) (ec : code)
| act_network_stopped (ec : code).

Definition step (a : action) : M unit :=
  match a with
  | act_start handler => start invoke handler
  | act_register_channel channel handle_started handle_stopped =>
      register_channel invoke channel handle_started handle_stopped
  | act_complete i ec v => complete i ec v
  | act_channel_stopped channel ec => channel_fire_stop channel ec
  | act_network_stopped ec => network_fire_stop ec
  end.

Definition run (actions : list action) (w : world) : world :=
  fold_left (λ w a, exec (step a) w) actions w.

(** The worlds a run passes through, the initial one included. *)
Fixpoint states (actions : list action) (w : world) : list world :=
  match actions with
  | [] => [w]
  | a :: rest => w :: states rest (exec (step a) w)
  end.

(** [emits w w' es]: from [w] to [w'] exactly the events [es] were
    journalled, in this order. *)
Definition emits (w w' : world) (es : list event) : Prop :=
  journal w' = rev es ++ journal w.

Definition channel_of (ch : channel_ptr) (w : world) : channel :=
  default blank_channel (heap w !! ch).

(** The handlers [register_channel] builds for a channel. *)
Definition stop_handler_of (ch : channel_ptr) (stopped_cb : nat)
  : result_handler :=
  bind_do_remove ch (user_handler stopped_cb).

Definition start_handler_of (ch : channel_ptr) (started_cb stopped_cb : nat)
  : result_handler :=
  bind_handle_start ch (user_handler started_cb)
    (stop_handler_of ch stopped_cb).

Definition unpend_handler_of (ch : channel_ptr) (started_cb stopped_cb : nat)
  : result_handler :=
  bind_do_unpend ch (start_handler_of ch started_cb stopped_cb).

(** The continuation the registration sequence ends in: the start handler
    for an inbound session, the unpend handler around it otherwise. *)
Definition continuation_of (incoming : bool) (ch : channel_ptr)
  (started_cb stopped_cb : nat) : result_handler :=
  if incoming then start_handler_of ch started_cb stopped_cb
  else unpend_handler_of ch started_cb stopped_cb.

(** The requests a registration with continuation [k] can have
    outstanding, one per step of the sequence. *)
Inductive stage (k : result_handler) (ch : channel_ptr) : request → Prop :=
| stage_pend :
    stage k ch (req_pending_store ch (bind_handle_pend ch k))
| stage_channel_start :
    stage k ch (req_channel_start ch (bind_handle_channel_start ch k))
| stage_handshake :
    stage k ch
      (req_protocol_version_start ch (bind_handle_handshake ch k))
| stage_is_pending n :
    stage k ch (req_pending_exists n (bind_handle_is_pending ch k))
| stage_store :
    stage k ch (req_network_store ch k).

(** The journal entry that goes with posting a request. *)
Definition call_event (r : request) : event :=
  match r with
  | req_pending_store ch _ => ev_pending_store ch
  | req_pending_exists n _ => ev_pending_exists n
  | req_pending_remove ch _ => ev_pending_remove ch
  | req_channel_start ch _ => ev_channel_start ch
  | req_protocol_version_start ch _ => ev_attach_protocol_version ch
  | req_network_store ch _ => ev_network_store ch
  | req_network_remove ch _ => ev_network_remove ch
  end.

(** What the end of the sequence journals, for the final code [ec]. *)
Definition completion_events (incoming : bool) (ch : channel_ptr)
  (started_cb stopped_cb : nat) (ec : code) : list event :=
  (if incoming then [] else [ev_set_nonce ch 0%Z; ev_pending_remove ch]) ++
  [if is_error ec then ev_channel_stop ch ec
   else ev_channel_subscribe_stop ch (stop_handler_of ch stopped_cb);
   ev_handler started_cb ec].

(** "The nonce is 0 outside the interval in which the channel is in the
    pending table", at one point of a run. *)
Definition nonce_zero_unless_pending (ch : channel_ptr) (w : world) : Prop :=
  ch ∉ pending_ w → chan_nonce (channel_of ch w) = 0%Z.

End methods.

End session.

Module message_type.

(** [message_type]: the enumerators, and [unrecognized] for any other
    value the enumeration type can hold. *)
Inductive t : Set :=
| address | alert | block | filter_add | filter_clear | filter_load
| get_address | get_blocks | get_data | get_headers | headers | inventory
| memory_pool | merkle_block | not_found | ping | pong | reject
| transaction | verack | version
| unknown
| unrecognized (ordinal : Z).

End message_type.

Module message_subscriber.

Abbreviation subscriber_ptr := nat.

Section hub.

(** Decoded messages, and the decoder of each message class
    ([Message::from_data], libbitcoin): a value or the decoder's error. *)
Variable payload : Type.
Variable from_data : message_type.t → list Byte.byte → payload + code.

(** Modelled from the spec: the typed subscriber (section 4.A; the
    subscriber template is not in src).  Running or stopped, with the
    handlers waiting for the next delivery. *)
Record subscriber := Subscriber {
  sub_pool : nat;
  sub_name : string;
  sub_stopped : bool;
  sub_waiters : list nat
}.

(** One invocation of a waiting handler. *)
Record delivery := Delivery {
  to_handler : nat;
  with_code : code;
  with_value : option payload
}.

(** The subscribers live on the heap; the hub's members point to them. *)
Record state := State {
  subscribers : list subscriber;
  deliveries : list delivery
}.

Definition M (A : Type) : Type := state → A * state.

Global Instance M_ret : MRet M := λ A x st, (x, st).
Global Instance M_bind : MBind M :=
  λ A B f m st, let '(x, st') := m st in f x st'.

Definition exec {A} (m : M A) (st : state) : state := (m st).2.

Definition waiting (p : subscriber_ptr) (st : state) : list nat :=
  match subscribers st !! p with
  | Some s => sub_waiters s
  | None => []
  end.

Definition notify (ec : code) (value : option payload) (waiters : list nat)
  : list delivery :=
  map (λ h, Delivery h ec value) waiters.

(** [std::make_shared<subscriber_type>(pool, name)]: stopped until
    started, nobody waiting. *)
Definition make_subscriber (pool : nat) (name : string) : M subscriber_ptr :=
  λ st, (length (subscribers st),
         State (subscribers st ++ [Subscriber pool name true []])
           (deliveries st)).

(** A subscriber operation changes the subscriber in place and invokes
    the handlers that were waiting on it. *)
Definition visit (f : subscriber → subscriber)
  (announce : list nat → list delivery) (p : subscriber_ptr) : M unit :=
  λ st, (tt,
         State (alter f p (subscribers st))
           (deliveries st ++ announce (waiting p st))).

Definition drained (s : subscriber) : subscriber :=
  Subscriber (sub_pool s) (sub_name s) (sub_stopped s) [].

Definition running (s : subscriber) : subscriber :=
  Subscriber (sub_pool s) (sub_name s) false (sub_waiters s).

Definition halted (s : subscriber) : subscriber :=
  Subscriber (sub_pool s) (sub_name s) true [].

(** [subscriber->relay(ec, value)]: drain the waiters, invoking each. *)
Definition subscriber_relay (p : subscriber_ptr) (ec : code)
  (value : option payload) : M unit :=
  visit drained (notify ec value) p.

(** [subscriber->subscribe(handler)]: a stopped subscriber answers at
    once with [service_stopped]. *)
Definition subscriber_subscribe (p : subscriber_ptr) (handler : nat)
  : M unit :=
  λ st, (tt,
         match subscribers st !! p with
         | Some s =>
             if sub_stopped s then
               State (subscribers st)
                 (deliveries st ++ [Delivery handler service_stopped None])
             else
               State
                 (<[p := Subscriber (sub_pool s) (sub_name s) false
                          (sub_waiters s ++ [handler])]> (subscribers st))
                 (deliveries st)
         | None => st
         end).

(** [subscriber->start()] *)
Definition subscriber_start (p : subscriber_ptr) : M unit :=
  visit running (λ _, []) p.

(** [subscriber->stop()]: the remaining waiters learn of the stop. *)
Definition subscriber_stop (p : subscriber_ptr) : M unit :=
  visit halted (notify service_stopped None) p.

(** The members of [message_subscriber]. *)
Record message_subscriber := MessageSubscriber {
  address_subscriber_ : subscriber_ptr;
  alert_subscriber_ : subscriber_ptr;
  block_subscriber_ : subscriber_ptr;
  filter_add_subscriber_ : subscriber_ptr;
  filter_clear_subscriber_ : subscriber_ptr;
  filter_load_subscriber_ : subscriber_ptr;
  get_address_subscriber_ : subscriber_ptr;
  get_blocks_subscriber_ : subscriber_ptr;
  get_data_subscriber_ : subscriber_ptr;
  get_headers_subscriber_ : subscriber_ptr;
  headers_subscriber_ : subscriber_ptr;
  inventory_subscriber_ : subscriber_ptr;
  memory_pool_subscriber_ : subscriber_ptr;
  merkle_block_subscriber_ : subscriber_ptr;
  not_found_subscriber_ : subscriber_ptr;
  ping_subscriber_ : subscriber_ptr;
  pong_subscriber_ : subscriber_ptr;
  reject_subscriber_ : subscriber_ptr;
  transaction_subscriber_ : subscriber_ptr;
  verack_subscriber_ : subscriber_ptr;
  version_subscriber_ : subscriber_ptr
}.

(** [INITIALIZE_SUBSCRIBER(pool, value)] *)
Definition INITIALIZE_SUBSCRIBER (pool : nat) (value : string)
  : M subscriber_ptr :=
  make_subscriber pool (value ++ "_sub").

(** [RELAY_CODE(code, value)]: [value_subscriber_->relay(code, nullptr)] *)
Definition RELAY_CODE (ec : code) (value_subscriber_ : subscriber_ptr)
  : M unit :=
  subscriber_relay value_subscriber_ ec None.

Definition START_SUBSCRIBER (value_subscriber_ : subscriber_ptr) : M unit :=
  subscriber_start value_subscriber_.

Definition STOP_SUBSCRIBER (value_subscriber_ : subscriber_ptr) : M unit :=
  subscriber_stop value_subscriber_.

(** Modelled from the spec: the [relay<Message>] and [handle<Message>]
    templates (message_subscriber.hpp is not in src).  Both decode the
    stream and deliver to the subscribers of the kind: the decoded value
    with [success], or the decoder's error with no value; the code is
    returned. *)
Definition relay (type : message_type.t) (stream : list Byte.byte)
  (value_subscriber_ : subscriber_ptr) : M code :=
  match from_data type stream with
  | inl message =>
      subscriber_relay value_subscriber_ success (Some message);;
      mret success
  | inr ec =>
      subscriber_relay value_subscriber_ ec None;;
      mret ec
  end.

Definition handle (type : message_type.t) (stream : list Byte.byte)
  (value_subscriber_ : subscriber_ptr) : M code :=
  relay type stream value_subscriber_.

(** message_subscriber.cpp *)

Definition construct (pool : nat) : M message_subscriber :=
  address ← INITIALIZE_SUBSCRIBER pool "address";
  alert ← INITIALIZE_SUBSCRIBER pool "alert";
  block ← INITIALIZE_SUBSCRIBER pool "block";
  filter_add ← INITIALIZE_SUBSCRIBER pool "filter_add";
  filter_clear ← INITIALIZE_SUBSCRIBER pool "filter_clear";
  filter_load ← INITIALIZE_SUBSCRIBER pool "filter_load";
  get_address ← INITIALIZE_SUBSCRIBER pool "get_address";
  get_blocks ← INITIALIZE_SUBSCRIBER pool "get_blocks";
  get_data ← INITIALIZE_SUBSCRIBER pool "get_data";
  get_headers ← INITIALIZE_SUBSCRIBER pool "get_headers";
  headers ← INITIALIZE_SUBSCRIBER pool "headers";
  inventory ← INITIALIZE_SUBSCRIBER pool "inventory";
  memory_pool ← INITIALIZE_SUBSCRIBER pool "memory_pool";
  merkle_block ← INITIALIZE_SUBSCRIBER pool "merkle_block";
  not_found ← INITIALIZE_SUBSCRIBER pool "not_found";
  ping ← INITIALIZE_SUBSCRIBER pool "ping";
  pong ← INITIALIZE_SUBSCRIBER pool "pong";
  reject ← INITIALIZE_SUBSCRIBER pool "reject";
  transaction ← INITIALIZE_SUBSCRIBER pool "transaction";
  verack ← INITIALIZE_SUBSCRIBER pool "verack";
  version ← INITIALIZE_SUBSCRIBER pool "version";
  mret (MessageSubscriber address alert block filter_add filter_clear
    filter_load get_address get_blocks get_data get_headers headers
    inventory memory_pool merkle_block not_found ping pong reject
    transaction verack version).

Definition broadcast (self : message_subscriber) (ec : code) : M unit :=
  RELAY_CODE ec (address_subscriber_ self);;
  RELAY_CODE ec (alert_subscriber_ self);;
  RELAY_CODE ec (block_subscriber_ self);;
  RELAY_CODE ec (filter_add_subscriber_ self);;
  RELAY_CODE ec (filter_clear_subscriber_ self);;
  RELAY_CODE ec (filter_load_subscriber_ self);;
  RELAY_CODE ec (get_address_subscriber_ self);;
  RELAY_CODE ec (get_blocks_subscriber_ self);;
  RELAY_CODE ec (get_data_subscriber_ self);;
  RELAY_CODE ec (get_headers_subscriber_ self);;
  RELAY_CODE ec (headers_subscriber_ self);;
  RELAY_CODE ec (inventory_subscriber_ self);;
  RELAY_CODE ec (memory_pool_subscriber_ self);;
  RELAY_CODE ec (merkle_block_subscriber_ self);;
  RELAY_CODE ec (not_found_subscriber_ self);;
  RELAY_CODE ec (ping_subscriber_ self);;
  RELAY_CODE ec (pong_subscriber_ self);;
  RELAY_CODE ec (reject_subscriber_ self);;
  RELAY_CODE ec (transaction_subscriber_ self);;
  RELAY_CODE ec (verack_subscriber_ self);;
  RELAY_CODE ec (version_subscriber_ self).

Definition load (self : message_subscriber) (type : message_type.t)
  (stream : list Byte.byte) : M code :=
  match type with
  | message_type.address => relay type stream (address_subscriber_ self)
  | message_type.alert => relay type stream (alert_subscriber_ self)
  | message_type.block => handle type stream (block_subscriber_ self)
  | message_type.filter_add => relay type stream (filter_add_subscriber_ self)
  | message_type.filter_clear =>
      relay type stream (filter_clear_subscriber_ self)
  | message_type.filter_load =>
      relay type stream (filter_load_subscriber_ self)
  | message_type.get_address =>
      relay type stream (get_address_subscriber_ self)
  | message_type.get_blocks => relay type stream (get_blocks_subscriber_ self)
  | message_type.get_data => relay type stream (get_data_subscriber_ self)
  | message_type.get_headers =>
      relay type stream (get_headers_subscriber_ self)
  | message_type.headers => relay type stream (headers_subscriber_ self)
  | message_type.inventory => relay type stream (inventory_subscriber_ self)
  | message_type.memory_pool =>
      relay type stream (memory_pool_subscriber_ self)
  | message_type.merkle_block =>
      relay type stream (merkle_block_subscriber_ self)
  | message_type.not_found => relay type stream (not_found_subscriber_ self)
  | message_type.ping => relay type stream (ping_subscriber_ self)
  | message_type.pong => relay type stream (pong_subscriber_ self)
  | message_type.reject => relay type stream (reject_subscriber_ self)
  | message_type.transaction =>
      relay type stream (transaction_subscriber_ self)
  | message_type.verack => relay type stream (verack_subscriber_ self)
  | message_type.version => relay type stream (version_subscriber_ self)
  | message_type.unknown => mret not_found
  | message_type.unrecognized _ => mret not_found
  end.

Definition start (self : message_subscriber) : M unit :=
  START_SUBSCRIBER (address_subscriber_ self);;
  START_SUBSCRIBER (alert_subscriber_ self);;
  START_SUBSCRIBER (block_subscriber_ self);;
  START_SUBSCRIBER (filter_add_subscriber_ self);;
  START_SUBSCRIBER (filter_clear_subscriber_ self);;
  START_SUBSCRIBER (filter_load_subscriber_ self);;
  START_SUBSCRIBER (get_address_subscriber_ self);;
  START_SUBSCRIBER (get_blocks_subscriber_ self);;
  START_SUBSCRIBER (get_data_subscriber_ self);;
  START_SUBSCRIBER (get_headers_subscriber_ self);;
  START_SUBSCRIBER (headers_subscriber_ self);;
  START_SUBSCRIBER (inventory_subscriber_ self);;
  START_SUBSCRIBER (memory_pool_subscriber_ self);;
  START_SUBSCRIBER (merkle_block_subscriber_ self);;
  START_SUBSCRIBER (not_found_subscriber_ self);;
  START_SUBSCRIBER (ping_subscriber_ self);;
  START_SUBSCRIBER (pong_subscriber_ self);;
  START_SUBSCRIBER (reject_subscriber_ self);;
  START_SUBSCRIBER (transaction_subscriber_ self);;
  START_SUBSCRIBER (verack_subscriber_ self);;
  START_SUBSCRIBER (version_subscriber_ self).

Definition stop (self : message_subscriber) : M unit :=
  STOP_SUBSCRIBER (address_subscriber_ self);;
  STOP_SUBSCRIBER (alert_subscriber_ self);;
  STOP_SUBSCRIBER (block_subscriber_ self);;
  STOP_SUBSCRIBER (filter_add_subscriber_ self);;
  STOP_SUBSCRIBER (filter_clear_subscriber_ self);;
  STOP_SUBSCRIBER (filter_load_subscriber_ self);;
  STOP_SUBSCRIBER (get_address_subscriber_ self);;
  STOP_SUBSCRIBER (get_blocks_subscriber_ self);;
  STOP_SUBSCRIBER (get_data_subscriber_ self);;
  STOP_SUBSCRIBER (get_headers_subscriber_ self);;
  STOP_SUBSCRIBER (headers_subscriber_ self);;
  STOP_SUBSCRIBER (inventory_subscriber_ self);;
  STOP_SUBSCRIBER (memory_pool_subscriber_ self);;
  STOP_SUBSCRIBER (merkle_block_subscriber_ self);;
  STOP_SUBSCRIBER (not_found_subscriber_ self);;
  STOP_SUBSCRIBER (ping_subscriber_ self);;
  STOP_SUBSCRIBER (pong_subscriber_ self);;
  STOP_SUBSCRIBER (reject_subscriber_ self);;
  STOP_SUBSCRIBER (transaction_subscriber_ self);;
  STOP_SUBSCRIBER (verack_subscriber_ self);;
  STOP_SUBSCRIBER (version_subscriber_ self).

(** The 21 message kinds, and the member that serves each. *)
Definition kinds : list message_type.t :=
  [message_type.address; message_type.alert; message_type.block;
   message_type.filter_add; message_type.filter_clear;
   message_type.filter_load; message_type.get_address;
   message_type.get_blocks; message_type.get_data;
   message_type.get_headers; message_type.headers; message_type.inventory;
   message_type.memory_pool; message_type.merkle_block;
   message_type.not_found; message_type.ping; message_type.pong;
   message_type.reject; message_type.transaction; message_type.verack;
   message_type.version].

Definition subscriber_of (self : message_subscriber) (type : message_type.t)
  : option subscriber_ptr :=
  match type with
  | message_type.address => Some (address_subscriber_ self)
  | message_type.alert => Some (alert_subscriber_ self)
  | message_type.block => Some (block_subscriber_ self)
  | message_type.filter_add => Some (filter_add_subscriber_ self)
  | message_type.filter_clear => Some (filter_clear_subscriber_ self)
  | message_type.filter_load => Some (filter_load_subscriber_ self)
  | message_type.get_address => Some (get_address_subscriber_ self)
  | message_type.get_blocks => Some (get_blocks_subscriber_ self)
  | message_type.get_data => Some (get_data_subscriber_ self)
  | message_type.get_headers => Some (get_headers_subscriber_ self)
  | message_type.headers => Some (headers_subscriber_ self)
  | message_type.inventory => Some (inventory_subscriber_ self)
  | message_type.memory_pool => Some (memory_pool_subscriber_ self)
  | message_type.merkle_block => Some (merkle_block_subscriber_ self)
  | message_type.not_found => Some (not_found_subscriber_ self)
  | message_type.ping => Some (ping_subscriber_ self)
  | message_type.pong => Some (pong_subscriber_ self)
  | message_type.reject => Some (reject_subscriber_ self)
  | message_type.transaction => Some (transaction_subscriber_ self)
  | message_type.verack => Some (verack_subscriber_ self)
  | message_type.version => Some (version_subscriber_ self)
  | message_type.unknown => None
  | message_type.unrecognized _ => None
  end.

Definition members (self : message_subscriber) : list subscriber_ptr :=
  omap (subscriber_of self) kinds.

(** The same operation on one subscriber after the other. *)
Fixpoint for_each (f : subscriber_ptr → M unit) (ps : list subscriber_ptr)
  : M unit :=
  match ps with
  | [] => mret tt
  | p :: rest => f p;; for_each f rest
  end.

(** The names the constructor gives the subscribers, in member order. *)
Definition names : list string :=
  ["address_sub"; "alert_sub"; "block_sub"; "filter_add_sub";
   "filter_clear_sub"; "filter_load_sub"; "get_address_sub";
   "get_blocks_sub"; "get_data_sub"; "get_headers_sub"; "headers_sub";
   "inventory_sub"; "memory_pool_sub"; "merkle_block_sub"; "not_found_sub";
   "ping_sub"; "pong_sub"; "reject_sub"; "transaction_sub"; "verack_sub";
   "version_sub"]%string.

End hub.

End message_subscriber.

(** * Scenarios *)

Module scenarios.

Import session.

(** The value of [bc::peer_minimum_version] used in the scenarios; the
    properties below hold for every value. *)
Definition peer_minimum_version : Z := 31402.

Definition fresh_channel (peer : authority) : channel :=
  Channel peer 0 false (Version 0 0) None [].

(** A channel of another session that is in the pending table. *)
Definition dialing_channel (peer : authority) (n : Z) : channel :=
  Channel peer n false (Version 0 0) None [].

Definition no_version : version := Version 0 0.

Definition run := session.run peer_minimum_version.
Definition states := session.states peer_minimum_version.

(** An inbound session that has been started; channel 0 was accepted,
    channel 1 is being dialed with nonce [0xDEADBEEF]. *)
Definition inbound_session : world :=
  run [act_start (user_handler 0)]
    (construct (Settings [] 70001) false false
       [fresh_channel "peer"; dialing_channel "self" 0xDEADBEEF] [1] []).

(** An outbound session that has been started; channel 0 was connected. *)
Definition outbound_session : world :=
  run [act_start (user_handler 0)]
    (construct (Settings [] 70001) true true [fresh_channel "peer"] []
       [41%Z]).

(** Channel 0 is registered inbound, starts, and its peer advertises the
    nonce of the pending channel. *)
Definition loopback : list action :=
  [act_register_channel 0 (user_handler 1) (user_handler 2);
   act_complete 0 success no_version;
   act_complete 0 success (Version 70001 0xDEADBEEF)].

(** The world in which the handshake handler of that run is invoked:
    the protocol has populated the channel's version. *)
Definition handshake_done : world :=
  exec (channel_set_version 0 (Version 70001 0xDEADBEEF))
    (exec (take_request 0) (run (take 2 loopback) inbound_session)).

(** Channel 0 is registered inbound and its start fails. *)
Definition failed_channel_start : list action :=
  [act_register_channel 0 (user_handler 1) (user_handler 2);
   act_complete 0 (other_error 1) no_version].

(** ... after which the handshake, the loopback test and the peer store
    succeed all the same. *)
Definition failed_channel_start_accepted : list action :=
  failed_channel_start ++
  [act_complete 0 success (Version 70001 7);
   act_complete 0 success no_version;
   act_complete 0 success no_version].

(** Channel 0 is registered inbound; its peer reports version 60000. *)
Definition old_peer : list action :=
  [act_register_channel 0 (user_handler 1) (user_handler 2);
   act_complete 0 success no_version;
   act_complete 0 success (Version 60000 7);
   act_complete 0 success no_version].

(** Channel 0 is registered outbound and the pending table refuses it. *)
Definition refused_pend : list action :=
  [act_register_channel 0 (user_handler 1) (user_handler 2);
   act_complete 0 (other_error 2) no_version].

(** Channel 0 is registered outbound and everything succeeds; the last
    completion is that of the removal from the pending table. *)
Definition outbound_accepted : list action :=
  [act_register_channel 0 (user_handler 1) (user_handler 2);
   act_complete 0 success no_version;
   act_complete 0 success no_version;
   act_complete 0 success (Version 70001 7);
   act_complete 0 success no_version;
   act_complete 0 success no_version].

(** The network stops, then a channel is registered. *)
Definition register_after_stop : list action :=
  [act_network_stopped service_stopped;
   act_register_channel 0 (user_handler 1) (user_handler 2)].

(** A session as constructed, not yet started, that refuses one peer. *)
Definition idle_session : world :=
  construct (Settings ["203.0.113.7:8333"%string] 70001) false false
    [fresh_channel "peer"] [] [].

(** Five answers that accept a channel, and a sixth for the removal from
    the pending table. *)
Definition accepting : list (nat * code * version) :=
  [(0, success, no_version); (0, success, no_version);
   (0, success, Version 70001 7); (0, success, no_version);
   (0, success, no_version); (0, success, no_version)].

(** The decoder that takes the bytes as they are. *)
Definition raw_bytes (type : message_type.t) (stream : list Byte.byte)
  : list Byte.byte + code :=
  inl stream.

(** A hub whose messages are the raw bytes, built on pool 0 in an empty
    heap and started; handler 7 waits for [ping], handler 8 for [block]. *)

Definition hub : message_subscriber.message_subscriber :=
  (message_subscriber.construct (list Byte.byte) 0
     (message_subscriber.State (list Byte.byte) [] [])).1.

Definition two_waiters : message_subscriber.state (list Byte.byte) :=
  message_subscriber.exec (list Byte.byte)
    (message_subscriber.construct (list Byte.byte) 0;;
     message_subscriber.start (list Byte.byte) hub;;
     message_subscriber.subscriber_subscribe (list Byte.byte)
       (message_subscriber.ping_subscriber_ hub) 7;;
     message_subscriber.subscriber_subscribe (list Byte.byte)
       (message_subscriber.block_subscriber_ hub) 8)
    (message_subscriber.State (list Byte.byte) [] []).

End scenarios.

(** * Observations on runs *)

Module observe.

Import session.

(** How often the caller's handler [id] has been invoked, by the journal. *)
Fixpoint invocations (id : nat) (j : list event) : nat :=
  match j with
  | [] => 0
  | ev_handler i _ :: rest =>
      (if Nat.eqb i id then 1 else 0) + invocations id rest
  | _ :: rest => invocations id rest
  end.

(** The requests that belong to a registration sequence, as opposed to
    the best-effort removals the session only logs. *)
Definition is_step (r : request) : bool :=
  match r with
  | req_pending_remove _ _ => false
  | req_network_remove _ _ => false
  | _ => true
  end.

Definition in_progress (w : world) : bool := existsb is_step (outstanding w).

(** The steps a request still has before it, itself included. *)
Definition rank (r : request) : nat :=
  match r with
  | req_pending_store _ _ => 5
  | req_channel_start _ _ => 4
  | req_protocol_version_start _ _ => 3
  | req_pending_exists _ _ => 2
  | req_network_store _ _ => 1
  | req_pending_remove _ _ => 0
  | req_network_remove _ _ => 0
  end.

(** The environment completing requests, one answer per completion. *)
Definition completions (answers : list (nat * code * version))
  : list action :=
  map (λ a, act_complete a.1.1 a.1.2 a.2) answers.

(** The members of the session that only its constructor and [start]
    assign, and the stopped flag not being cleared. *)
Definition session_kept (w w' : world) : Prop :=
  incoming_ w' = incoming_ w ∧
  notify_ w' = notify_ w ∧
  settings_ w' = settings_ w ∧
  (stopped_ w = true → stopped_ w' = true).

(** Nothing but the journal, the channels and the outstanding requests
    differs: what a handler of the session can change. *)
Definition handler_footprint (w w' : world) : Prop :=
  session_kept w w' ∧
  stop_subscribers w' = stop_subscribers w ∧
  pending_ w' = pending_ w ∧
  connections w' = connections w ∧
  entropy w' = entropy w.

(** Is an action a call of [start]? *)
Definition is_start (a : action) : bool :=
  match a with
  | act_start _ => true
  | _ => false
  end.

(** Where a registration of [ch] with callbacks [s] and [t] stands, in a
    world that had nothing else outstanding: either its one request is
    outstanding, with at most [n] steps to go and nothing signaled, or the
    sequence has ended, the started callback has been signaled once and at
    most the removal from the pending table is outstanding.  The stopped
    callback has not been invoked. *)
Definition tracking (incoming : bool) (ch : channel_ptr) (s t : nat)
  (base_s base_t : nat) (n : nat) (w : world) : Prop :=
  invocations t (journal w) = base_t ∧
  ((∃ r, outstanding w = [r] ∧
         stage (continuation_of incoming ch s t) ch r ∧
         rank r ≤ n ∧
         invocations s (journal w) = base_s) ∨
   ((outstanding w = [] ∨
     outstanding w = [req_pending_remove ch bind_handle_unpend]) ∧
    invocations s (journal w) = S base_s)).

End observe.

(** * Properties of the session *)

Create HintDb session_ops.
#[local] Hint Unfold session.exec session.emits session.channel_of
  session.gets session.modify session.skip session.emit session.post
  session.channel_at session.update_channel session.channel_set_notify
  session.channel_set_nonce session.channel_set_version
  session.channel_authority session.channel_version session.channel_start
  session.channel_stop session.channel_subscribe_stop
  session.attach_protocol_version_start session.pending_store
  session.pending_exists session.pending_remove session.network_store
  session.network_remove session.network_subscribe_stop session.log_debug
  session.stopped session.subscribe_stop
  session.start session.do_stop_session session.handle_start
  session.handle_is_pending session.call_truth session.handle_handshake
  session.handle_channel_start session.handle_pend session.handle_unpend
  session.handle_remove session.do_unpend session.do_remove
  session.register_channel session.respond
  session.stop_handler_of session.start_handler_of
  session.unpend_handler_of session.continuation_of
  session.completion_events
  : session_ops.

Ltac run_m :=
  repeat (autounfold with session_ops;
          unfold mbind, session.M_bind, mret, session.M_ret;
          cbn -[Z.ltb Z.eqb Z.modulo Z.pow Z.add Z.sub]).

Section session_properties.

Import session.

Variable peer_minimum_version : Z.

Local Abbreviation invoke := (session.invoke peer_minimum_version).
Local Abbreviation register_channel := (session.register_channel invoke).
Local Abbreviation respond := (session.respond peer_minimum_version).
Local Abbreviation handle_is_pending :=
  (session.handle_is_pending peer_minimum_version invoke).

(** A field that an update leaves alone reads the same afterwards, for
    every channel. *)
Lemma alter_keeps_field {A} (g : channel → A) (f : channel → channel)
  (ch c : channel_ptr) (h : list channel) :
  (∀ x, g (f x) = g x) →
  g (default blank_channel (alter f ch h !! c)) =
  g (default blank_channel (h !! c)).
Proof.
  intros Hf. destruct (decide (c = ch)) as [->|Hne].
  - rewrite list_lookup_alter_eq. destruct (h !! ch); cbn; [apply Hf | reflexivity].
  - rewrite list_lookup_alter_ne by congruence. reflexivity.
Qed.

(** The end of the sequence, for an inbound and for an outbound session. *)
Lemma continuation_emits (incoming : bool) (ch : channel_ptr) (s t : nat)
  (ec : code) (w : world) :
  emits w (exec (invoke (continuation_of incoming ch s t) ec) w)
    (completion_events incoming ch s t ec).
Proof. destruct incoming, (is_error ec) eqn:E; run_m; rewrite E; run_m; reflexivity. Qed.

(** C5: [start] on a session that is not idle invokes the handler with
    [operation_failed] and changes nothing else; on an idle session it
    clears the stopped flag, subscribes [do_stop_session] to the network's
    stop event and only then invokes the handler with [success].  The
    subscribed callback sets the stopped flag again. *)
Theorem start_spec (handler : nat) (w : world) :
  let w' := exec (start invoke (user_handler handler)) w in
  (if stopped_ w then
     stopped_ w' = false ∧
     stop_subscribers w' = stop_subscribers w ++ [bind_do_stop_session] ∧
     emits w w'
       [ev_network_subscribe_stop bind_do_stop_session;
        ev_handler handler success] ∧
     outstanding w' = outstanding w ∧ heap w' = heap w
   else
     w' = set_journal (ev_handler handler operation_failed :: journal w) w) ∧
  (∀ (k : result_handler) (w1 : world),
     exec (start invoke k) w1 =
       if stopped_ w1 then
         exec (invoke k success)
           (exec (subscribe_stop bind_do_stop_session)
              (set_stopped_ false w1))
       else exec (invoke k operation_failed) w1) ∧
  (∀ (ec : code) (w1 : world),
     exec (invoke bind_do_stop_session ec) w1 = set_stopped_ true w1).
Proof.
  split; [|split].
  - run_m. destruct (stopped_ w) eqn:E; run_m; [repeat split|].
    destruct w; cbn in *; subst; reflexivity.
  - intros k w1. run_m. destruct (stopped_ w1); reflexivity.
  - reflexivity.
Qed.

(** C6: [register_channel] on a stopped session stops the channel with
    [service_stopped] and invokes the started callback once with that code;
    nothing is requested from the channel, the pending table or the peer
    store, and no stop subscription is added to any channel. *)
Theorem register_channel_stopped (w : world) (ch : channel_ptr)
  (started_cb stopped_cb : nat) :
  stopped_ w = true →
  let w' :=
    exec (register_channel ch (user_handler started_cb)
            (user_handler stopped_cb)) w in
  emits w w'
    [ev_channel_stop ch service_stopped;
     ev_handler started_cb service_stopped] ∧
  outstanding w' = outstanding w ∧
  pending_ w' = pending_ w ∧
  connections w' = connections w ∧
  (∀ c, chan_stop_subscribers (channel_of c w') =
        chan_stop_subscribers (channel_of c w)) ∧
  (∀ c, chan_nonce (channel_of c w') = chan_nonce (channel_of c w)).
Proof.
  intros Hs. run_m. rewrite Hs. run_m.
  repeat split; intros c; apply alter_keeps_field; reflexivity.
Qed.

(** One step of a registration: a completed request either ends the
    sequence by invoking the continuation, with [success] only if it was
    the peer store that completed successfully, or posts the request of a
    later step and invokes no handler. *)
Lemma stage_progress (k : result_handler) (ch : channel_ptr) (r : request)
  (ec : code) (v : version) (w : world) :
  stage k ch r →
  let w' := exec (respond r ec v) w in
  (∃ ec' w1 logs,
     w' = exec (invoke k ec') w1 ∧
     emits w w1 (map ev_log_debug logs) ∧
     outstanding w1 = outstanding w ∧
     (is_error ec' = true ∨
      (r = req_network_store ch k ∧ ec = success ∧ ec' = success))) ∨
  (∃ r', stage k ch r' ∧
     outstanding w' = outstanding w ++ [r'] ∧
     emits w w' [call_event r']).
Proof.
  intros Hr w'. subst w'. destruct Hr.
  - destruct (is_error ec) eqn:E.
    + left. exists ec, w, []. run_m. rewrite E. run_m. auto.
    + right. eexists. split; [apply stage_channel_start|].
      run_m. rewrite E. run_m. auto.
  - right. eexists. split; [apply stage_handshake|]. run_m. auto.
  - destruct (is_error ec) eqn:E.
    + left. exists ec. eexists. eexists [_]. run_m. rewrite E. run_m.
      split; [reflexivity|]. run_m. auto.
    + run_m. rewrite E. run_m. destruct (incoming_ w) eqn:I; run_m.
      * right. eexists. split; [apply stage_is_pending|]. run_m. auto.
      * match goal with |- context [(?a <? ?b)%Z] =>
          destruct (a <? b)%Z eqn:V end; run_m.
        -- left. exists accept_failed. eexists. eexists [_].
           split; [reflexivity|]. run_m. auto.
        -- right. eexists. split; [apply stage_store|]. run_m. auto.
  - run_m. destruct (pending_has n w) eqn:P; run_m.
    + left. exists accept_failed. eexists. eexists [_].
      split; [reflexivity|]. run_m. auto.
    + match goal with |- context [(?a <? ?b)%Z] =>
        destruct (a <? b)%Z eqn:V end; run_m.
      * left. exists accept_failed. eexists. eexists [_].
        split; [reflexivity|]. run_m. auto.
      * right. eexists. split; [apply stage_store|]. run_m. auto.
  - left. exists ec. destruct (is_error ec) eqn:E.
    + exists w, []. run_m. rewrite E. run_m. auto.
    + eexists. exists []. run_m. rewrite E. run_m.
      split; [reflexivity|]. run_m. destruct ec; try discriminate. auto 6.
Qed.

(** [handle_channel_start] never looks at the code it is given. *)
Lemma handle_channel_start_any_code (ec : code) (ch : channel_ptr)
  (k : result_handler) (w : world) :
  invoke (bind_handle_channel_start ch k) ec w =
  attach_protocol_version_start ch (bind_handle_handshake ch k) w.
Proof. reflexivity. Qed.

(** A channel that is on the heap is marked stopped by [channel_stop]. *)
Lemma channel_stop_marks (ch : channel_ptr) (ec : code) (w : world) :
  is_Some (heap w !! ch) →
  is_Some (chan_stopped (channel_of ch (exec (channel_stop ch ec) w))).
Proof.
  intros [c Hc]. run_m. rewrite list_lookup_alter_eq, Hc. cbn.
  destruct (chan_stopped c); eauto.
Qed.

Ltac not_among :=
  let Hin := fresh in
  intros Hin;
  repeat (apply elem_of_cons in Hin as [Hin|Hin]; [discriminate Hin|]);
  apply elem_of_nil in Hin; exact Hin.

(** C1: when the handshake of a channel succeeds on an inbound session,
    the pending table is asked whether the nonce of the peer's version is
    stored; if it is, the rejection is logged, the channel is stopped with
    [accept_failed], the started callback gets [accept_failed] and the peer
    store is not called.  On an outbound session the handshake handler goes
    straight to the version check and the pending table is not asked. *)
Theorem loopback_check (w : world) (ch : channel_ptr)
  (started_cb stopped_cb : nat) :
  let k := continuation_of (incoming_ w) ch started_cb stopped_cb in
  let n := nonce (chan_version (channel_of ch w)) in
  let w1 := exec (invoke (bind_handle_handshake ch k) success) w in
  if incoming_ w then
    emits w w1 [ev_pending_exists n] ∧
    outstanding w1 =
      outstanding w ++ [req_pending_exists n (bind_handle_is_pending ch k)] ∧
    (∀ (w2 : world) (ec : code) (v : version),
       pending_has n w2 = true →
       is_Some (heap w2 !! ch) →
       let w3 :=
         exec (respond
                 (req_pending_exists n (bind_handle_is_pending ch k)) ec v)
           w2 in
       emits w2 w3
         [ev_log_debug (log_loopback (chan_authority (channel_of ch w2)));
          ev_channel_stop ch accept_failed;
          ev_handler started_cb accept_failed] ∧
       is_Some (chan_stopped (channel_of ch w3)) ∧
       outstanding w3 = outstanding w2 ∧
       connections w3 = connections w2)
  else
    w1 = exec (handle_is_pending false ch k) w ∧
    ∃ es rs,
      emits w w1 es ∧ outstanding w1 = outstanding w ++ rs ∧
      (∀ m, ev_pending_exists m ∉ es) ∧
      (∀ m h, req_pending_exists m h ∉ rs).
Proof.
  destruct (incoming_ w) eqn:I; cbv zeta.
  - run_m. rewrite I. run_m. split; [reflexivity|split; [reflexivity|]].
    intros w2 ec v P Hch. rewrite P. run_m.
    split; [reflexivity|split; [|split; reflexivity]].
    apply (channel_stop_marks ch accept_failed
             (set_journal
                (ev_log_debug
                   (log_loopback (chan_authority (channel_of ch w2)))
                 :: journal w2) w2)).
    exact Hch.
  - split; [run_m; rewrite I; reflexivity|].
    run_m. rewrite I. run_m.
    match goal with |- context [(?a <? ?b)%Z] =>
      destruct (a <? b)%Z eqn:V end; run_m.
    + eexists [_; _; _; _; _], [_]. split; [reflexivity|].
      split; [reflexivity|]. split; intros; not_among.
    + eexists [_], [_]. split; [reflexivity|].
      split; [reflexivity|]. split; intros; not_among.
Qed.

(** The nonce drawn for an outbound channel is not zero. *)
Lemma nonzero_pseudo_random_nonzero (w : world) :
  (nonzero_pseudo_random w).1 ≠ 0%Z.
Proof.
  unfold nonzero_pseudo_random. destruct (entropy w) as [|x rest]; cbn.
  - discriminate.
  - pose proof (Z.mod_pos_bound x (2 ^ 64 - 1) ltac:(reflexivity)). lia.
Qed.

(** C3, as the code has it: on a running outbound session
    [register_channel] gives the channel a nonzero nonce and then asks the
    pending table to store it, with the unpend handler as the continuation
    of the sequence.  The sequence ends only by invoking that continuation,
    which resets the nonce to 0, asks the pending table to remove the
    channel, stops or subscribes the channel and then signals the started
    callback with the unchanged code. *)
Theorem outbound_unpend_spec (w : world) (ch : channel_ptr)
  (started_cb stopped_cb : nat) :
  let k := unpend_handler_of ch started_cb stopped_cb in
  (stopped_ w = false → incoming_ w = false →
   let w1 :=
     exec (register_channel ch (user_handler started_cb)
             (user_handler stopped_cb)) w in
   ∃ r, r ≠ 0%Z ∧
     emits w w1
       [ev_set_notify ch (notify_ w); ev_set_nonce ch r;
        ev_pending_store ch] ∧
     outstanding w1 =
       outstanding w ++ [req_pending_store ch (bind_handle_pend ch k)] ∧
     pending_ w1 = pending_ w ∧
     (is_Some (heap w !! ch) → chan_nonce (channel_of ch w1) = r)) ∧
  (∀ (w2 : world) (ec : code),
     let w3 := exec (invoke k ec) w2 in
     emits w2 w3
       [ev_set_nonce ch 0%Z; ev_pending_remove ch;
        if is_error ec then ev_channel_stop ch ec
        else ev_channel_subscribe_stop ch (stop_handler_of ch stopped_cb);
        ev_handler started_cb ec] ∧
     chan_nonce (channel_of ch w3) = 0%Z ∧
     outstanding w3 =
       outstanding w2 ++ [req_pending_remove ch bind_handle_unpend]) ∧
  (∀ (r : request) (ec : code) (v : version) (w2 : world),
     stage k ch r →
     let w3 := exec (respond r ec v) w2 in
     (∃ ec' w' logs,
        w3 = exec (invoke k ec') w' ∧
        emits w2 w' (map ev_log_debug logs) ∧
        outstanding w' = outstanding w2) ∨
     (∃ r', stage k ch r' ∧
        outstanding w3 = outstanding w2 ++ [r'] ∧
        emits w2 w3 [call_event r'])).
Proof.
  cbv zeta. split; [|split].
  - intros Hs Hi. run_m. rewrite Hs. run_m. rewrite Hi. run_m.
    pose proof (nonzero_pseudo_random_nonzero w) as Hr.
    unfold nonzero_pseudo_random in *. run_m.
    destruct (entropy w) as [|x rest]; run_m;
      (eexists; split; [exact Hr|]);
      (split; [reflexivity|split; [reflexivity|split; [reflexivity|]]]);
      intros [c Hc]; rewrite !list_lookup_alter_eq, Hc; reflexivity.
  - intros w2 ec. destruct (is_error ec) eqn:E; run_m; rewrite E; run_m;
      repeat split; rewrite !list_lookup_alter_eq;
      destruct (heap w2 !! ch); reflexivity.
  - intros r ec v w2 Hr.
    destruct (stage_progress _ _ _ ec v w2 Hr)
      as [(ec' & w' & logs & H1 & H2 & H3 & _)|H]; [left|right; exact H].
    exists ec', w', logs. auto.
Qed.

(** The end of the sequence is the start handler.  With [success] it
    subscribes the stop handler, which wraps the stopped callback, to the
    channel's stop event and then invokes the started callback with
    [success]; with an error it stops the channel with that error, leaves
    every stop subscription as it was and invokes the started callback with
    the error.  The continuation receives [success] only from the peer
    store's successful completion: every other step that ends the sequence
    hands it an error.  Whether a failed step does end the sequence is
    another matter: a failed channel start does not, see below. *)
Theorem stop_subscription_spec (incoming : bool) (ch : channel_ptr)
  (started_cb stopped_cb : nat) :
  let k := continuation_of incoming ch started_cb stopped_cb in
  (∀ (w : world) (ec : code),
     let w' := exec (invoke k ec) w in
     emits w w' (completion_events incoming ch started_cb stopped_cb ec) ∧
     if is_error ec then
       (∀ c, chan_stop_subscribers (channel_of c w') =
             chan_stop_subscribers (channel_of c w)) ∧
       (is_Some (heap w !! ch) → is_Some (chan_stopped (channel_of ch w')))
     else
       (∀ c, c ≠ ch →
             chan_stop_subscribers (channel_of c w') =
             chan_stop_subscribers (channel_of c w)) ∧
       (is_Some (heap w !! ch) →
        chan_stop_subscribers (channel_of ch w') =
        chan_stop_subscribers (channel_of ch w) ++
          [stop_handler_of ch stopped_cb])) ∧
  (∀ (r : request) (ec : code) (v : version) (w : world),
     stage k ch r →
     let w' := exec (respond r ec v) w in
     (∃ ec' w1 logs,
        w' = exec (invoke k ec') w1 ∧
        emits w w1 (map ev_log_debug logs) ∧
        outstanding w1 = outstanding w ∧
        (is_error ec' = true ∨
         (r = req_network_store ch k ∧ ec = success ∧ ec' = success))) ∨
     (∃ r', stage k ch r' ∧
        outstanding w' = outstanding w ++ [r'] ∧
        emits w w' [call_event r'])).
Proof.
  cbv zeta. split.
  - intros w ec. split; [apply continuation_emits|].
    destruct incoming, (is_error ec) eqn:E; run_m; rewrite E; run_m;
      (split;
       [intros c; try intros Hne;
        first
          [ repeat (rewrite (alter_keeps_field chan_stop_subscribers)
                      by reflexivity); reflexivity
          | rewrite !list_lookup_alter_ne by congruence; reflexivity ]
       |intros [c Hc]; rewrite !list_lookup_alter_eq, Hc; cbn;
        try destruct (chan_stopped c); eauto]).
  - intros r ec v w Hr. exact (stage_progress _ _ _ ec v w Hr).
Qed.

(** C7, as the code has it: a channel that is not a loopback is compared
    with the library constant [bc::peer_minimum_version]; the settings
    snapshot plays no part.  Below the constant the rejection is logged and
    the sequence ends with [accept_failed], the peer store not being
    called; otherwise the channel is handed to the peer store with the
    continuation of the sequence as completion handler, which delivers the
    store's code to the started callback. *)
Theorem version_check_spec (incoming : bool) (w : world) (ch : channel_ptr)
  (started_cb stopped_cb : nat) :
  let k := continuation_of incoming ch started_cb stopped_cb in
  let v := chan_version (channel_of ch w) in
  let w' := exec (handle_is_pending false ch k) w in
  (if (value v <? peer_minimum_version)%Z then
     emits w w'
       (ev_log_debug
          (log_version_below_minimum (value v) peer_minimum_version
             (chan_authority (channel_of ch w)))
        :: completion_events incoming ch started_cb stopped_cb
             accept_failed) ∧
     connections w' = connections w ∧
     outstanding w' =
       outstanding w ++
       (if incoming then [] else [req_pending_remove ch bind_handle_unpend])
   else
     emits w w' [ev_network_store ch] ∧
     outstanding w' = outstanding w ++ [req_network_store ch k]) ∧
  (∀ (w1 : world) (ec : code) (v1 : version),
     emits w1 (exec (respond (req_network_store ch k) ec v1) w1)
       (completion_events incoming ch started_cb stopped_cb ec)) ∧
  (∀ (s : settings),
     exec (handle_is_pending false ch k) (set_settings_ s w) =
     set_settings_ s w').
Proof.
  cbv zeta. split; [|split].
  - run_m. destruct (_ <? _)%Z eqn:V.
    + destruct incoming; run_m; rewrite ?app_nil_r; repeat split.
    + run_m. split; reflexivity.
  - intros w1 ec v1.
    destruct incoming, (is_error ec) eqn:E; run_m; rewrite E; run_m;
      rewrite ?E; reflexivity.
  - intros s. run_m. destruct (_ <? _)%Z; [destruct incoming|]; reflexivity.
Qed.

(** C10: the stop handler that [register_channel] subscribes to a channel
    first asks the peer store to remove the channel and then invokes the
    stopped callback with the code of the stop event.  The outcome of the
    removal reaches [handle_remove] only, which logs a failure at debug
    level and invokes nothing. *)
Theorem stop_handler_spec (w : world) (ch : channel_ptr) (stopped_cb : nat)
  (ec : code) :
  let w' := exec (invoke (stop_handler_of ch stopped_cb) ec) w in
  (emits w w' [ev_network_remove ch; ev_handler stopped_cb ec] ∧
   outstanding w' =
     outstanding w ++ [req_network_remove ch bind_handle_remove]) ∧
  (chan_stop_subscribers (channel_of ch w) = [stop_handler_of ch stopped_cb] →
   emits w (exec (channel_fire_stop peer_minimum_version ch ec) w)
     [ev_network_remove ch; ev_handler stopped_cb ec]) ∧
  (∀ (w1 : world) (ec' : code) (v : version),
     let w2 :=
       exec (respond (req_network_remove ch bind_handle_remove) ec' v) w1 in
     emits w1 w2
       (if is_error ec' then [ev_log_debug (log_remove_failure ec')]
        else []) ∧
     outstanding w2 = outstanding w1).
Proof.
  cbv zeta. split; [|split].
  - run_m. split; reflexivity.
  - intros Hsub. unfold channel_fire_stop. run_m.
    unfold channel_of in Hsub. rewrite Hsub. run_m. reflexivity.
  - intros w1 ec' v. destruct (is_error ec') eqn:E; run_m; rewrite E; run_m;
      split; reflexivity.
Qed.

End session_properties.

(** * The session on the scenarios *)

Section session_scenarios.

Import session scenarios.

Local Abbreviation invoke := (session.invoke peer_minimum_version).
Local Abbreviation respond := (session.respond peer_minimum_version).

(** The stopped session of scenario "start after stop". *)
Lemma register_channel_stopped_witness :
  stopped_ (run [act_network_stopped service_stopped] inbound_session) = true ∧
  journal (run register_after_stop inbound_session) =
    [ev_handler 1 service_stopped; ev_channel_stop 0 service_stopped;
     ev_handler 0 success; ev_network_subscribe_stop bind_do_stop_session] ∧
  outstanding (run register_after_stop inbound_session) = [].
Proof.
  pose proof
    (register_channel_stopped peer_minimum_version
       (run [act_network_stopped service_stopped] inbound_session) 0 1 2
       eq_refl) as (Hj & Ho & _).
  split; [reflexivity|]. split; [exact Hj|exact Ho].
Defined.

(** Scenario "loopback rejection": the peer's nonce [0xDEADBEEF] is in the
    pending table. *)
Lemma loopback_check_witness :
  let w := run loopback inbound_session in
  let w' := run (loopback ++ [act_complete 0 success no_version])
              inbound_session in
  pending_has 0xDEADBEEF w = true ∧
  is_Some (heap w !! 0) ∧
  emits w w'
    [ev_log_debug (log_loopback "peer"); ev_channel_stop 0 accept_failed;
     ev_handler 1 accept_failed] ∧
  connections w' = [].
Proof.
  cbv zeta.
  assert (Hch : is_Some (heap (run loopback inbound_session) !! 0))
    by (eexists; reflexivity).
  pose proof (loopback_check peer_minimum_version handshake_done 0 1 2) as H.
  cbv zeta in H. change (incoming_ handshake_done) with true in H.
  destruct H as (_ & _ & H).
  specialize (H (run loopback inbound_session) success no_version
                eq_refl Hch).
  cbv zeta in H. destruct H as (He & _ & _ & Hc).
  split; [reflexivity|]. split; [exact Hch|].
  split; [vm_compute in He |- *; exact He|vm_compute in Hc |- *; exact Hc].
Defined.

(** C2 on a failing input: the channel's start fails with a transport
    error, yet the version protocol is attached and started, the started
    callback is not invoked, and when the later steps succeed the channel
    is accepted with [success]: the start error is lost. *)
Theorem channel_start_error_dropped :
  let w := run failed_channel_start inbound_session in
  emits inbound_session w [ev_channel_start 0; ev_attach_protocol_version 0] ∧
  outstanding w =
    [req_protocol_version_start 0
       (bind_handle_handshake 0 (start_handler_of 0 1 2))] ∧
  chan_stopped (channel_of 0 w) = None ∧
  emits inbound_session (run failed_channel_start_accepted inbound_session)
    [ev_channel_start 0; ev_attach_protocol_version 0; ev_pending_exists 7;
     ev_network_store 0;
     ev_channel_subscribe_stop 0 (stop_handler_of 0 2);
     ev_handler 1 success].
Proof. cbv zeta. repeat split. Qed.

(** C4 on a failing input: the registration fails at its second step,
    the start of the channel, which completes with a transport error.
    [handle_channel_start] drops the error, so the later steps run; when
    they succeed the stop handler is subscribed to the channel all the
    same, the channel is never stopped, and the started callback is
    signaled [success] instead of the error. *)
Theorem failed_start_still_armed :
  let w := run failed_channel_start_accepted inbound_session in
  outstanding (run (take 1 failed_channel_start) inbound_session) =
    [req_channel_start 0
       (bind_handle_channel_start 0 (start_handler_of 0 1 2))] ∧
  drop 1 failed_channel_start = [act_complete 0 (other_error 1) no_version] ∧
  is_error (other_error 1) = true ∧
  chan_stop_subscribers (channel_of 0 w) = [stop_handler_of 0 2] ∧
  chan_stopped (channel_of 0 w) = None ∧
  journal w =
    [ev_handler 1 success;
     ev_channel_subscribe_stop 0 (stop_handler_of 0 2);
     ev_network_store 0; ev_pending_exists 7;
     ev_attach_protocol_version 0; ev_channel_start 0;
     ev_handler 0 success;
     ev_network_subscribe_stop bind_do_stop_session].
Proof. cbv zeta. repeat split. Qed.

(** C3 fails as stated: when the pending table refuses the channel, the
    channel is never in the table, and still its nonce is 42 from
    [register_channel] until the refusal is handled. *)
Lemma nonce_nonzero_outside_pending :
  Forall (λ w, 0 ∉ pending_ w) (states refused_pend outbound_session) ∧
  ¬ Forall (nonce_zero_unless_pending 0)
      (states refused_pend outbound_session).
Proof.
  split.
  - repeat constructor; apply not_elem_of_nil.
  - intros H. apply Forall_cons in H as [_ H]. apply Forall_cons in H as [H _].
    specialize (H (not_elem_of_nil 0)). discriminate H.
Qed.

Lemma outbound_unpend_spec_witness :
  stopped_ outbound_session = false ∧
  incoming_ outbound_session = false ∧
  emits outbound_session
    (run [act_register_channel 0 (user_handler 1) (user_handler 2)]
       outbound_session)
    [ev_set_notify 0 true; ev_set_nonce 0 42; ev_pending_store 0] ∧
  stage (unpend_handler_of 0 1 2) 0
    (req_pending_store 0 (bind_handle_pend 0 (unpend_handler_of 0 1 2))) ∧
  chan_nonce (channel_of 0 (run refused_pend outbound_session)) = 0%Z.
Proof.
  pose proof
    (outbound_unpend_spec peer_minimum_version outbound_session 0 1 2)
    as (H1 & H2 & H3).
  cbv zeta in H1, H2, H3.
  pose proof (H1 eq_refl eq_refl) as (r & _ & _ & _ & _ & Hn).
  pose proof
    (H3 _ (other_error 2) no_version
       (run [act_register_channel 0 (user_handler 1) (user_handler 2)]
          outbound_session)
       (stage_pend (unpend_handler_of 0 1 2) 0)) as _.
  destruct (H2 (run [act_register_channel 0 (user_handler 1)
                       (user_handler 2)] outbound_session)
              (other_error 2)) as (_ & Hz & _).
  repeat split. apply stage_pend.
Defined.

(** The end of the sequence on the outbound scenarios: refused by the
    pending table, and accepted. *)
Lemma stop_subscription_spec_witness :
  is_Some (heap outbound_session !! 0) ∧
  stage (continuation_of false 0 1 2) 0
    (req_network_store 0 (continuation_of false 0 1 2)) ∧
  chan_stop_subscribers
    (channel_of 0 (run refused_pend outbound_session)) = [] ∧
  chan_stop_subscribers
    (channel_of 0 (run outbound_accepted outbound_session)) =
    [stop_handler_of 0 2].
Proof.
  pose proof (stop_subscription_spec peer_minimum_version false 0 1 2)
    as (H1 & H2).
  cbv zeta in H1, H2.
  pose proof (H1 outbound_session success) as (_ & _ & Hs).
  pose proof (Hs (ex_intro _ _ eq_refl)) as _.
  pose proof (H2 _ success no_version outbound_session
                (stage_store (continuation_of false 0 1 2) 0)) as _.
  repeat split. eexists; reflexivity. apply stage_store.
Defined.

(** C7 fails as stated: the settings ask for 70001, the peer reports
    60000, and the channel is handed to the peer store and accepted. *)
Lemma settings_threshold_not_applied :
  let w := run old_peer inbound_session in
  let w' := run (old_peer ++ [act_complete 0 success no_version])
              inbound_session in
  settings_peer_minimum_version (settings_ w) = 70001%Z ∧
  value (chan_version (channel_of 0 w)) = 60000%Z ∧
  outstanding w = [req_network_store 0 (start_handler_of 0 1 2)] ∧
  emits inbound_session w'
    [ev_channel_start 0; ev_attach_protocol_version 0; ev_pending_exists 7;
     ev_network_store 0;
     ev_channel_subscribe_stop 0 (stop_handler_of 0 2);
     ev_handler 1 success] ∧
  connections w' = [0].
Proof. cbv zeta. repeat split. Qed.

(** C10 on the accepted outbound channel: its stop event fires with a
    transport error. *)
Lemma stop_handler_spec_witness :
  let w := run outbound_accepted outbound_session in
  chan_stop_subscribers (channel_of 0 w) = [stop_handler_of 0 2] ∧
  emits w (exec (channel_fire_stop peer_minimum_version 0 (other_error 3)) w)
    [ev_network_remove 0; ev_handler 2 (other_error 3)].
Proof.
  cbv zeta.
  pose proof
    (stop_handler_spec peer_minimum_version
       (run outbound_accepted outbound_session) 0 2 (other_error 3))
    as (_ & H & _).
  assert (Hs : chan_stop_subscribers
                 (channel_of 0 (run outbound_accepted outbound_session)) =
               [stop_handler_of 0 2]) by reflexivity.
  split; [exact Hs|exact (H Hs)].
Defined.

End session_scenarios.

(** * Properties of the message subscriber *)

Section message_subscriber_properties.

Import message_subscriber.

Variable payload : Type.
Variable from_data : message_type.t → list Byte.byte → payload + code.

Local Abbreviation state := (message_subscriber.state payload).
Local Abbreviation load := (message_subscriber.load payload from_data).
Local Abbreviation broadcast := (message_subscriber.broadcast payload).

(** Visiting one subscriber leaves the waiters of the others alone. *)
Lemma waiting_visit_ne (f : subscriber → subscriber)
  (announce : list nat → list (delivery payload)) (p q : subscriber_ptr)
  (st : state) :
  p ≠ q → waiting payload q (exec payload (visit payload f announce p) st)
          = waiting payload q st.
Proof.
  intros Hne. unfold waiting, exec, visit. cbn.
  rewrite list_lookup_alter_ne by exact Hne. reflexivity.
Qed.

(** Visiting distinct subscribers in turn changes each of them once and
    announces to the handlers that were waiting on each. *)
Lemma for_each_visit (f : subscriber → subscriber)
  (announce : list nat → list (delivery payload))
  (ps : list subscriber_ptr) (st : state) :
  NoDup ps →
  let st' := exec payload (for_each payload (visit payload f announce) ps) st in
  (∀ q, subscribers payload st' !! q =
        if decide (q ∈ ps) then f <$> subscribers payload st !! q
        else subscribers payload st !! q) ∧
  deliveries payload st' =
    deliveries payload st ++
    concat (map (λ p, announce (waiting payload p st)) ps).
Proof.
  intros Hnd. revert st. induction Hnd as [|p rest Hp Hnd IH]; intros st.
  - cbn. split; [intros q; reflexivity|]. rewrite app_nil_r. reflexivity.
  - specialize (IH (exec payload (visit payload f announce p) st)).
    cbv zeta in IH. destruct IH as [IHs IHd]. split.
    + intros q.
      change (exec payload
                (for_each payload (visit payload f announce) (p :: rest)) st)
        with (exec payload (for_each payload (visit payload f announce) rest)
                (exec payload (visit payload f announce p) st)).
      rewrite IHs. cbn.
      destruct (decide (q = p)) as [->|Hne].
      * rewrite decide_False by exact Hp.
        rewrite decide_True by apply list_elem_of_here.
        apply list_lookup_alter_eq.
      * rewrite list_lookup_alter_ne by congruence.
        destruct (decide (q ∈ rest)) as [Hin|Hout].
        -- rewrite decide_True by (apply list_elem_of_further; exact Hin).
           reflexivity.
        -- rewrite decide_False; [reflexivity|].
           intros Hin. apply elem_of_cons in Hin as [?|?]; contradiction.
    + change (exec payload
                (for_each payload (visit payload f announce) (p :: rest)) st)
        with (exec payload (for_each payload (visit payload f announce) rest)
                (exec payload (visit payload f announce p) st)).
      rewrite IHd. cbn. rewrite <- app_assoc. do 3 f_equal.
      apply map_ext_in. intros q Hq. f_equal.
      apply waiting_visit_ne. intros ->. apply Hp.
      apply list_elem_of_In. exact Hq.
Qed.

(** Two sequences that start with the same visit agree if what follows
    agrees. *)
Lemma visit_cong (f : subscriber → subscriber)
  (announce : list nat → list (delivery payload)) (p : subscriber_ptr)
  (m1 m2 : M payload unit) (st : state) :
  (∀ st', m1 st' = m2 st') →
  (visit payload f announce p ≫= λ _, m1) st =
  (visit payload f announce p ≫= λ _, m2) st.
Proof. intros H. apply H. Qed.

Ltac unroll_visits :=
  unfold members, kinds; cbn;
  repeat (apply visit_cong; intros ?);
  reflexivity.

(** The three fan-out operations are one loop over the members each. *)
Lemma broadcast_for_each (self : message_subscriber) (ec : code) (st : state) :
  broadcast self ec st =
  for_each payload (visit payload drained (notify payload ec None))
    (members self) st.
Proof.
  unfold message_subscriber.broadcast, RELAY_CODE, subscriber_relay.
  unroll_visits.
Qed.

Lemma start_for_each (self : message_subscriber) (st : state) :
  start payload self st =
  for_each payload (visit payload running (λ _, [])) (members self) st.
Proof.
  unfold start, START_SUBSCRIBER, subscriber_start. unroll_visits.
Qed.

Lemma stop_for_each (self : message_subscriber) (st : state) :
  stop payload self st =
  for_each payload
    (visit payload halted (notify payload service_stopped None))
    (members self) st.
Proof.
  unfold stop, STOP_SUBSCRIBER, subscriber_stop. unroll_visits.
Qed.

(** One initializer of the constructor: the new subscriber goes to the
    end of the heap, behind those allocated before it. *)
Lemma initialize_then {A} (pool : nat) (value : string)
  (k : subscriber_ptr → M payload A) (subs fresh : list subscriber)
  (dels : list (delivery payload)) :
  (INITIALIZE_SUBSCRIBER payload pool value ≫= k)
    (State payload (subs ++ fresh) dels) =
  k (length subs + length fresh)
    (State payload
       (subs ++ (fresh ++ [Subscriber pool (value ++ "_sub") true []])) dels).
Proof.
  unfold INITIALIZE_SUBSCRIBER, make_subscriber, mbind, M_bind. cbn.
  rewrite length_app, app_assoc. reflexivity.
Qed.

(** The constructor allocates 21 subscribers, in member order. *)
Lemma construct_members (pool : nat) (st0 : state) :
  members (construct payload pool st0).1 =
    seq (length (subscribers payload st0)) 21 ∧
  subscribers payload (construct payload pool st0).2 =
    subscribers payload st0 ++
    map (λ name, Subscriber pool name true []) names ∧
  deliveries payload (construct payload pool st0).2 = deliveries payload st0.
Proof.
  destruct st0 as [subs dels].
  destruct (construct payload pool (State payload subs dels))
    as [self st1] eqn:E.
  unfold construct in E. rewrite <- (app_nil_r subs) in E.
  repeat (rewrite initialize_then in E; cbn [length app] in E).
  injection E as <- <-. cbn [fst snd subscribers deliveries].
  split; [|split; [|reflexivity]].
  - unfold members, kinds. cbn [omap list_omap subscriber_of seq].
    rewrite ?Nat.add_succ_r, ?Nat.add_0_r. reflexivity.
  - reflexivity.
Qed.

(** C8: [load] of [unknown], or of a value outside the enumeration,
    returns [not_found] and leaves every subscriber and the deliveries as
    they were; only the 21 kinds are dispatched. *)
Theorem load_not_found (self : message_subscriber) (stream : list Byte.byte)
  (st : state) :
  load self message_type.unknown stream st = (not_found, st) ∧
  (∀ n, load self (message_type.unrecognized n) stream st = (not_found, st)) ∧
  (∀ type, type ∈ kinds ∨ load self type stream st = (not_found, st)).
Proof.
  split; [reflexivity|]. split; [reflexivity|].
  intros type. destruct type;
    try (right; reflexivity); left; unfold kinds;
    repeat first [apply list_elem_of_here | apply list_elem_of_further].
Qed.

(** C9: the constructor creates 21 subscribers, one per kind, each named
    after its kind.  On any later state, [broadcast] relays the code with
    no value to the handlers waiting on each of them, once each, and
    leaves nobody waiting; [start] sets every member running and [stop]
    halts every member, telling the waiting handlers [service_stopped]. *)
Theorem broadcast_spec (pool : nat) (st0 : state) (ec : code) :
  let self := (construct payload pool st0).1 in
  let st1 := (construct payload pool st0).2 in
  (members self = seq (length (subscribers payload st0)) 21 ∧
   subscriber_of self <$> kinds = Some <$> members self ∧
   subscribers payload st1 =
     subscribers payload st0 ++
     map (λ name, Subscriber pool name true []) names ∧
   deliveries payload st1 = deliveries payload st0) ∧
  ∀ st : state,
    let relayed := exec payload (broadcast self ec) st in
    let started := exec payload (start payload self) st in
    let stopped := exec payload (stop payload self) st in
    (deliveries payload relayed =
       deliveries payload st ++
       concat (map (λ p, notify payload ec None (waiting payload p st))
                 (members self)) ∧
     (∀ type p h,
        subscriber_of self type = Some p →
        h ∈ waiting payload p st →
        Delivery payload h ec None ∈
          concat (map (λ p, notify payload ec None (waiting payload p st))
                    (members self))) ∧
     (∀ p, subscribers payload relayed !! p =
           if decide (p ∈ members self)
           then drained <$> subscribers payload st !! p
           else subscribers payload st !! p)) ∧
    ((∀ p, subscribers payload started !! p =
           if decide (p ∈ members self)
           then running <$> subscribers payload st !! p
           else subscribers payload st !! p) ∧
     deliveries payload started = deliveries payload st) ∧
    ((∀ p, subscribers payload stopped !! p =
           if decide (p ∈ members self)
           then halted <$> subscribers payload st !! p
           else subscribers payload st !! p) ∧
     deliveries payload stopped =
       deliveries payload st ++
       concat (map (λ p, notify payload service_stopped None
                           (waiting payload p st))
                 (members self))).
Proof.
  cbv zeta. destruct (construct_members pool st0) as (Hm & Hs & Hd).
  assert (Hnd : NoDup (members (construct payload pool st0).1))
    by (rewrite Hm; apply NoDup_seq).
  split; [repeat split; assumption|].
  intros st. generalize dependent (construct payload pool st0).1.
  intros self _ Hnd.
  assert (Hall : ∀ type p, subscriber_of self type = Some p →
                           p ∈ members self).
  { intros type p Hp. unfold members. apply list_elem_of_omap.
    exists type. split; [|exact Hp].
    destruct type; try discriminate Hp; unfold kinds;
      repeat first [apply list_elem_of_here | apply list_elem_of_further]. }
  assert (Hb : exec payload (broadcast self ec) st =
               exec payload
                 (for_each payload
                    (visit payload drained (notify payload ec None))
                    (members self)) st)
    by (unfold exec; rewrite broadcast_for_each; reflexivity).
  assert (Hstart : exec payload (start payload self) st =
                   exec payload
                     (for_each payload (visit payload running (λ _, []))
                        (members self)) st)
    by (unfold exec; rewrite start_for_each; reflexivity).
  assert (Hstop : exec payload (stop payload self) st =
                  exec payload
                    (for_each payload
                       (visit payload halted
                          (notify payload service_stopped None))
                       (members self)) st)
    by (unfold exec; rewrite stop_for_each; reflexivity).
  rewrite Hb, Hstart, Hstop. clear Hb Hstart Hstop.
  generalize dependent (members self). intros ms Hnd Hall.
  split; [|split].
  - destruct (for_each_visit drained (notify payload ec None) ms st Hnd)
      as [Hl Hdel].
    split; [exact Hdel|]. split; [|exact Hl].
    intros type p h Hp Hh. apply list_elem_of_In, in_concat.
    exists (notify payload ec None (waiting payload p st)). split.
    + apply (in_map (λ p, notify payload ec None (waiting payload p st))).
      apply list_elem_of_In. exact (Hall type p Hp).
    + unfold notify. apply in_map_iff. exists h.
      split; [reflexivity|apply list_elem_of_In; exact Hh].
  - destruct (for_each_visit running (λ _, []) ms st Hnd) as [Hl Hdel].
    split; [exact Hl|]. rewrite Hdel.
    clear. induction ms as [|p ps IH]; cbn in *;
      [apply app_nil_r|exact IH].
  - exact (for_each_visit halted (notify payload service_stopped None)
             ms st Hnd).
Qed.

End message_subscriber_properties.

(** Scenario "broadcast wakes all": the handlers waiting on [block] and on
    [ping] both receive [service_stopped]. *)
Lemma broadcast_spec_witness :
  let st := scenarios.two_waiters in
  let p := message_subscriber.ping_subscriber_ scenarios.hub in
  message_subscriber.subscriber_of scenarios.hub message_type.ping = Some p ∧
  7 ∈ message_subscriber.waiting (list Byte.byte) p st ∧
  message_subscriber.deliveries (list Byte.byte)
    (message_subscriber.exec (list Byte.byte)
       (message_subscriber.broadcast (list Byte.byte) scenarios.hub
          service_stopped) st) =
    [message_subscriber.Delivery (list Byte.byte) 8 service_stopped None;
     message_subscriber.Delivery (list Byte.byte) 7 service_stopped None].
Proof.
  cbv zeta.
  assert (H7 : 7 ∈ message_subscriber.waiting (list Byte.byte)
                     (message_subscriber.ping_subscriber_ scenarios.hub)
                     scenarios.two_waiters)
    by (vm_compute; apply list_elem_of_here).
  pose proof
    (broadcast_spec (list Byte.byte) 0
       (message_subscriber.State (list Byte.byte) [] []) service_stopped)
    as (_ & H).
  cbv zeta in H.
  destruct (H scenarios.two_waiters) as ((Hd & Hin & _) & _ & _).
  pose proof (Hin message_type.ping _ 7 eq_refl H7) as _.
  split; [reflexivity|]. split; [exact H7|].
  vm_compute in Hd |- *. exact Hd.
Defined.

(** * Further properties of the session *)

Section session_invariants.

Import session observe.

Variable peer_minimum_version : Z.

Local Abbreviation invoke := (session.invoke peer_minimum_version).
Local Abbreviation register_channel := (session.register_channel invoke).
Local Abbreviation respond := (session.respond peer_minimum_version).
Local Abbreviation step := (session.step peer_minimum_version).
Local Abbreviation run := (session.run peer_minimum_version).

(** [blacklisted] answers from the settings' blacklist and changes
    nothing: it holds exactly for the authorities on the list. *)
Theorem blacklisted_spec (peer : authority) (w : world) :
  (blacklisted peer w).2 = w ∧
  ((blacklisted peer w).1 = true ↔ In peer (blacklists (settings_ w))).
Proof.
  split; [reflexivity|]. unfold blacklisted, gets. cbn.
  rewrite existsb_exists. split.
  - intros (x & Hin & Heq). apply String.eqb_eq in Heq. subst. exact Hin.
  - intros Hin. exists peer. split; [exact Hin|apply String.eqb_refl].
Qed.

Lemma handler_footprint_refl (w : world) : handler_footprint w w.
Proof. repeat split; auto. Qed.

Lemma handler_footprint_trans (w1 w2 w3 : world) :
  handler_footprint w1 w2 → handler_footprint w2 w3 →
  handler_footprint w1 w3.
Proof.
  intros ((A1 & A2 & A3 & A4) & A5 & A6 & A7 & A8)
         ((B1 & B2 & B3 & B4) & B5 & B6 & B7 & B8).
  repeat split; try congruence. auto.
Qed.

Ltac footprint_step IH :=
  eapply handler_footprint_trans; [|apply IH];
  repeat split; auto.

(** Invoking a handler of the session changes neither the session's
    direction, persistence and settings, nor the network's stop
    subscriptions, the pending table, the peer store or the randomness;
    and it never clears the stopped flag. *)
Lemma invoke_footprint (handler : result_handler) :
  ∀ (ec : code) (w : world),
    handler_footprint w (exec (invoke handler ec) w).
Proof.
  induction handler as
    [id| |ch hs IH|ch h1 IH1 h2 IH2|ch hs IH|ch hs IH|ch hs IH|ch hs IH| |];
    intros ec w.
  - repeat split; auto.
  - repeat split; auto.
  - run_m. footprint_step IH.
  - run_m. destruct (is_error ec); run_m; footprint_step IH1.
  - run_m. footprint_step IH.
  - run_m. destruct (is_error ec); run_m;
      [footprint_step IH|repeat split; auto].
  - repeat split; auto.
  - run_m. destruct (is_error ec); run_m; [footprint_step IH|].
    destruct (incoming_ w); run_m; [repeat split; auto|].
    destruct (_ <? _)%Z; run_m; [footprint_step IH|repeat split; auto].
  - run_m. destruct (is_error ec); repeat split; auto.
  - run_m. destruct (is_error ec); repeat split; auto.
Qed.

Lemma session_kept_refl (w : world) : session_kept w w.
Proof. repeat split; auto. Qed.

Lemma session_kept_trans (w1 w2 w3 : world) :
  session_kept w1 w2 → session_kept w2 w3 → session_kept w1 w3.
Proof.
  intros (A1 & A2 & A3 & A4) (B1 & B2 & B3 & B4).
  repeat split; try congruence. auto.
Qed.

Lemma footprint_kept (w w' : world) :
  handler_footprint w w' → session_kept w w'.
Proof. intros [H _]. exact H. Qed.

Lemma handle_is_pending_footprint (pending : bool) (ch : channel_ptr)
  (hs : result_handler) (w : world) :
  handler_footprint w
    (exec (session.handle_is_pending peer_minimum_version invoke pending ch hs)
       w).
Proof.
  run_m. destruct pending; run_m.
  - eapply handler_footprint_trans; [|apply invoke_footprint].
    repeat split; auto.
  - destruct (_ <? _)%Z; run_m; [|repeat split; auto].
    eapply handler_footprint_trans; [|apply invoke_footprint].
    repeat split; auto.
Qed.

(** Running one command after another. *)
Lemma exec_then {A B} (m : M A) (k : M B) (w : world) :
  exec (m;; k) w = exec k (exec m w).
Proof. unfold exec, mbind, M_bind. destruct (m w). reflexivity. Qed.

Lemma invoke_all_footprint (handlers : list result_handler) (ec : code) :
  ∀ w, handler_footprint w
         (exec (invoke_all peer_minimum_version handlers ec) w).
Proof.
  induction handlers as [|h rest IH]; intros w.
  - apply handler_footprint_refl.
  - cbn [invoke_all]. rewrite exec_then.
    eapply handler_footprint_trans; [apply invoke_footprint|apply IH].
Qed.

Lemma invoke_all_app (l1 l2 : list result_handler) (ec : code) :
  ∀ w, exec (invoke_all peer_minimum_version (l1 ++ l2) ec) w =
       exec (invoke_all peer_minimum_version l2 ec)
         (exec (invoke_all peer_minimum_version l1 ec) w).
Proof.
  induction l1 as [|h rest IH]; intros w; [reflexivity|].
  cbn [invoke_all app]. rewrite !exec_then. apply IH.
Qed.

Lemma respond_kept (r : request) (ec : code) (v : version) (w : world) :
  session_kept w (exec (respond r ec v) w).
Proof.
  destruct r as [ch h|n [ch h]|ch h|ch h|ch h|ch h|ch h]; run_m.
  - destruct (is_error ec); run_m;
      (eapply session_kept_trans;
       [|apply footprint_kept, invoke_footprint]); repeat split; auto.
  - apply footprint_kept, handle_is_pending_footprint.
  - eapply session_kept_trans; [|apply footprint_kept, invoke_footprint].
    repeat split; auto.
  - apply footprint_kept, invoke_footprint.
  - destruct (is_error ec); run_m;
      (eapply session_kept_trans;
       [|apply footprint_kept, invoke_footprint]); repeat split; auto.
  - destruct (is_error ec); run_m;
      (eapply session_kept_trans;
       [|apply footprint_kept, invoke_footprint]); repeat split; auto.
  - eapply session_kept_trans; [|apply footprint_kept, invoke_footprint].
    repeat split; auto.
Qed.

Lemma step_kept (a : action) (w : world) :
  is_start a = false → session_kept w (exec (step a) w).
Proof.
  destruct a as [h|ch hs ht|i ec v|ch ec|ec]; intros Ha;
    [discriminate Ha| | | |].
  - change (exec (step (act_register_channel ch hs ht)) w)
      with (exec (register_channel ch hs ht) w).
    run_m. destruct (stopped_ w); run_m.
    + eapply session_kept_trans; [|apply footprint_kept, invoke_footprint].
      repeat split; auto.
    + destruct (incoming_ w); run_m; [repeat split; auto|].
      unfold nonzero_pseudo_random. run_m.
      destruct (entropy w); run_m; repeat split; auto.
  - unfold session.step, complete, take_request. run_m.
    destruct (outstanding w !! i) as [r|]; run_m; [|repeat split; auto].
    eapply session_kept_trans; [|apply respond_kept]. repeat split; auto.
  - unfold session.step, channel_fire_stop. run_m.
    eapply session_kept_trans;
      [|apply footprint_kept, invoke_all_footprint].
    repeat split; auto.
  - unfold session.step, network_fire_stop. run_m.
    eapply session_kept_trans;
      [|apply footprint_kept, invoke_all_footprint].
    repeat split; auto.
Qed.

(** X2: whatever is registered, completed or stopped, as long as [start]
    is not called the session keeps its direction, its persistence and its
    settings, and a stopped session stays stopped. *)
Theorem session_members_stable (actions : list action) (w : world) :
  forallb (λ a, negb (is_start a)) actions = true →
  session_kept w (run actions w).
Proof.
  revert w. induction actions as [|a rest IH]; intros w Hall.
  - apply session_kept_refl.
  - cbn in Hall. apply andb_true_iff in Hall as [Ha Hrest].
    apply negb_true_iff in Ha.
    change (run (a :: rest) w) with (run rest (exec (step a) w)).
    eapply session_kept_trans; [apply step_kept, Ha|apply IH, Hrest].
Qed.

(** X3: after a successful [start] the network's stop event, whatever
    its code, leaves the session stopped, and a channel registered then
    is stopped and refused with [service_stopped]. *)
Theorem stop_event_stops_session (k : result_handler) (ec : code)
  (w : world) :
  stopped_ w = true →
  let w' :=
    exec (network_fire_stop peer_minimum_version ec)
      (exec (start invoke k) w) in
  stopped_ w' = true ∧
  ∀ ch started_cb stopped_cb,
    emits w'
      (exec (register_channel ch (user_handler started_cb)
               (user_handler stopped_cb)) w')
      [ev_channel_stop ch service_stopped;
       ev_handler started_cb service_stopped].
Proof.
  intros Hs. cbv zeta.
  assert (Hstopped :
    stopped_ (exec (network_fire_stop peer_minimum_version ec)
                (exec (start invoke k) w)) = true).
  { unfold session.start at 1. run_m. rewrite Hs. run_m.
    match goal with
    | |- context [invoke k success ?w0] =>
        destruct (invoke_footprint k success w0) as (_ & Hsub & _);
        unfold exec in Hsub; cbn in Hsub;
        set (w1 := (invoke k success w0).2) in *
    end.
    unfold network_fire_stop. run_m. rewrite Hsub.
    match goal with
    | |- stopped_ (invoke_all _ (?l ++ ?l2) ?e ?w2).2 = true =>
        change (stopped_ (exec (invoke_all peer_minimum_version (l ++ l2) e)
                            w2) = true)
    end.
    rewrite invoke_all_app. reflexivity. }
  split; [exact Hstopped|].
  generalize dependent
    (exec (network_fire_stop peer_minimum_version ec)
       (exec (start invoke k) w)).
  intros w' Hstopped ch s t. run_m. rewrite Hstopped. run_m. reflexivity.
Qed.

(** X4: on a running inbound session [register_channel] only starts the
    channel: no nonce is assigned, the notify flag is left alone, the
    pending table is not involved and nothing is signaled yet. *)
Theorem register_channel_inbound (w : world) (ch : channel_ptr)
  (started_cb stopped_cb : nat) :
  stopped_ w = false → incoming_ w = true →
  let w' :=
    exec (register_channel ch (user_handler started_cb)
            (user_handler stopped_cb)) w in
  emits w w' [ev_channel_start ch] ∧
  outstanding w' =
    outstanding w ++
    [req_channel_start ch
       (bind_handle_channel_start ch
          (start_handler_of ch started_cb stopped_cb))] ∧
  heap w' = heap w ∧ pending_ w' = pending_ w ∧ entropy w' = entropy w.
Proof.
  intros Hs Hi. run_m. rewrite Hs. run_m. rewrite Hi. run_m.
  repeat split.
Qed.

(** One completed step of a registration, in full: the other channels
    are untouched, and either the sequence ends, journalling its completion
    after at most a debug log, or exactly one request of a later step is
    posted. *)
Lemma stage_step (incoming : bool) (ch : channel_ptr) (s t : nat)
  (r : request) (ec : code) (v : version) (w : world) :
  let k := continuation_of incoming ch s t in
  stage k ch r →
  let w' := exec (respond r ec v) w in
  (∀ c, c ≠ ch → channel_of c w' = channel_of c w) ∧
  ((∃ ec' logs,
      journal w' =
        rev (completion_events incoming ch s t ec') ++
        map ev_log_debug logs ++ journal w ∧
      outstanding w' =
        outstanding w ++
        (if incoming then []
         else [req_pending_remove ch bind_handle_unpend])) ∨
   (∃ r', stage k ch r' ∧ rank r' < rank r ∧
      outstanding w' = outstanding w ++ [r'] ∧
      journal w' = call_event r' :: journal w)).
Proof.
  intros k Hr w'. subst w'. split.
  - intros c Hc.
    destruct Hr; subst k; destruct incoming; run_m;
      repeat match goal with
             | |- context [if ?b then _ else _] => destruct b eqn:?; run_m
             end;
      rewrite ?list_lookup_alter_ne by congruence; reflexivity.
  - destruct Hr; subst k.
    + destruct (is_error ec) eqn:E.
      * left. exists ec, [].
        destruct incoming; run_m; rewrite E; run_m; rewrite ?E;
          rewrite ?app_nil_r; split; reflexivity.
      * right. eexists. split; [apply stage_channel_start|].
        run_m. rewrite E. run_m. repeat split. cbn. lia.
    + right. eexists. split; [apply stage_handshake|]. run_m.
      repeat split. cbn. lia.
    + destruct (is_error ec) eqn:E.
      * left. exists ec. eexists [_].
        destruct incoming; run_m; rewrite E; run_m; rewrite ?E;
          rewrite ?app_nil_r; split; reflexivity.
      * run_m. rewrite E. run_m. destruct (incoming_ w) eqn:I; run_m.
        -- right. eexists. split; [apply stage_is_pending|]. run_m.
           repeat split. cbn. lia.
        -- match goal with |- context [(?a <? ?b)%Z] =>
             destruct (a <? b)%Z eqn:V end; run_m.
           ++ left. exists accept_failed. eexists [_].
              destruct incoming; run_m; rewrite ?app_nil_r;
                split; reflexivity.
           ++ right. eexists. split; [apply stage_store|]. run_m.
              repeat split. cbn. lia.
    + run_m. destruct (pending_has n w) eqn:P; run_m.
      * left. exists accept_failed. eexists [_].
        destruct incoming; run_m; rewrite ?app_nil_r; split; reflexivity.
      * match goal with |- context [(?a <? ?b)%Z] =>
          destruct (a <? b)%Z eqn:V end; run_m.
        -- left. exists accept_failed. eexists [_].
           destruct incoming; run_m; rewrite ?app_nil_r;
             split; reflexivity.
        -- right. eexists. split; [apply stage_store|]. run_m.
           repeat split. cbn. lia.
    + left. exists ec, [].
      destruct incoming, (is_error ec) eqn:E; run_m; rewrite E; run_m;
        rewrite ?E; rewrite ?app_nil_r; split; reflexivity.
Qed.

(** X5: when the pending table refuses an outbound channel, the
    channel's I/O is never started: the nonce is reset, the removal
    requested, the channel stopped with the table's code, and that code
    signaled to the started callback. *)
Theorem pending_refusal (w : world) (ch : channel_ptr)
  (started_cb stopped_cb : nat) (ec : code) (v : version) :
  is_error ec = true →
  let k := unpend_handler_of ch started_cb stopped_cb in
  let w' :=
    exec (respond (req_pending_store ch (bind_handle_pend ch k)) ec v) w in
  emits w w'
    [ev_set_nonce ch 0%Z; ev_pending_remove ch; ev_channel_stop ch ec;
     ev_handler started_cb ec] ∧
  outstanding w' =
    outstanding w ++ [req_pending_remove ch bind_handle_unpend] ∧
  pending_ w' = pending_ w ∧
  chan_stop_subscribers (channel_of ch w') =
    chan_stop_subscribers (channel_of ch w).
Proof.
  intros E. run_m. rewrite E. run_m. rewrite ?E. run_m.
  repeat split.
  repeat (rewrite (alter_keeps_field chan_stop_subscribers)
            by reflexivity).
  reflexivity.
Qed.

(** X6: a failed handshake is logged at debug level with the peer's
    authority and the code, and ends the sequence with that code: the
    pending table is not asked about the peer's nonce and the peer store
    is not called. *)
Theorem handshake_failure (incoming : bool) (w : world) (ch : channel_ptr)
  (started_cb stopped_cb : nat) (ec : code) (v : version) :
  is_error ec = true →
  let k := continuation_of incoming ch started_cb stopped_cb in
  let w' :=
    exec (respond
            (req_protocol_version_start ch (bind_handle_handshake ch k))
            ec v) w in
  emits w w'
    (ev_log_debug
       (log_handshake_failure (chan_authority (channel_of ch w)) ec)
     :: completion_events incoming ch started_cb stopped_cb ec) ∧
  outstanding w' =
    outstanding w ++
    (if incoming then [] else [req_pending_remove ch bind_handle_unpend]) ∧
  chan_version (channel_of ch w') = chan_version (channel_of ch w) ∧
  connections w' = connections w.
Proof.
  intros E.
  destruct incoming; run_m; rewrite E; run_m; rewrite ?E; run_m;
    rewrite ?app_nil_r; repeat split;
    repeat (rewrite (alter_keeps_field chan_version) by reflexivity);
    reflexivity.
Qed.

(** X7: a registration is about its own channel only: neither
    [register_channel] nor any later step of the sequence changes another
    channel. *)
Theorem registration_frame (w : world) (ch : channel_ptr)
  (started_cb stopped_cb : nat) :
  (∀ c, c ≠ ch →
     channel_of c
       (exec (register_channel ch (user_handler started_cb)
                (user_handler stopped_cb)) w) = channel_of c w) ∧
  (∀ incoming r ec v w1 c,
     stage (continuation_of incoming ch started_cb stopped_cb) ch r →
     c ≠ ch →
     channel_of c (exec (respond r ec v) w1) = channel_of c w1).
Proof.
  split.
  - intros c Hc. run_m.
    destruct (stopped_ w); run_m;
      [rewrite ?list_lookup_alter_ne by congruence; reflexivity|].
    destruct (incoming_ w); run_m; [reflexivity|].
    unfold nonzero_pseudo_random. run_m.
    destruct (entropy w); run_m;
      rewrite ?list_lookup_alter_ne by congruence; reflexivity.
  - intros incoming r ec v w1 c Hr Hc.
    exact (proj1 (stage_step incoming ch started_cb stopped_cb r ec v w1 Hr)
             c Hc).
Qed.

Lemma invocations_app (id : nat) (j1 j2 : list event) :
  invocations id (j1 ++ j2) = invocations id j1 + invocations id j2.
Proof.
  induction j1 as [|e j1 IH]; [reflexivity|].
  destruct e; cbn; rewrite IH; lia.
Qed.

Lemma invocations_logs (id : nat) (logs : list log_entry) :
  invocations id (map ev_log_debug logs) = 0.
Proof. induction logs; [reflexivity|exact IHlogs]. Qed.

Lemma invocations_call_event (id : nat) (r : request) (j : list event) :
  invocations id (call_event r :: j) = invocations id j.
Proof. destruct r; reflexivity. Qed.

Lemma invocations_completion (incoming : bool) (ch : channel_ptr)
  (s t : nat) (ec : code) :
  s ≠ t →
  invocations s (rev (completion_events incoming ch s t ec)) = 1 ∧
  invocations t (rev (completion_events incoming ch s t ec)) = 0.
Proof.
  intros Hst. apply Nat.eqb_neq in Hst. unfold completion_events.
  destruct incoming, (is_error ec); cbn;
    rewrite Nat.eqb_refl, Hst; split; reflexivity.
Qed.

Lemma stage_is_step (k : result_handler) (ch : channel_ptr) (r : request) :
  stage k ch r → is_step r = true ∧ 1 ≤ rank r.
Proof. destruct 1; cbn; split; auto; lia. Qed.

Lemma complete_unfold (i : nat) (ec : code) (v : version) (w : world) :
  exec (complete peer_minimum_version i ec v) w =
  match outstanding w !! i with
  | Some r =>
      exec (respond r ec v) (set_outstanding (delete i (outstanding w)) w)
  | None => set_outstanding (delete i (outstanding w)) w
  end.
Proof.
  unfold complete, take_request, exec, mbind, M_bind. cbn.
  destruct (outstanding w !! i); reflexivity.
Qed.

(** A completion keeps the registration on track, and one that completes
    the request at index 0 takes a step off what is left. *)
Lemma tracking_complete (incoming : bool) (ch : channel_ptr) (s t : nat)
  (bs bt n : nat) (i : nat) (ec : code) (v : version) (w : world) :
  s ≠ t →
  tracking incoming ch s t bs bt n w →
  tracking incoming ch s t bs bt (match i with 0 => pred n | _ => n end)
    (exec (complete peer_minimum_version i ec v) w).
Proof.
  intros Hst [Ht [(r & Hout & Hr & Hrank & Hs)|[Hout Hs]]];
    rewrite complete_unfold.
  - rewrite Hout. destruct i as [|i]; cbn [lookup list_lookup delete
                                            list_delete].
    + destruct (stage_step incoming ch s t r ec v (set_outstanding [] w) Hr)
        as [_ [(ec' & logs & Hj & Ho)|(r' & Hr' & Hlt & Ho & Hj)]].
      * destruct (invocations_completion incoming ch s t ec' Hst)
          as [Hcs Hct].
        split; [|right; split].
        -- rewrite Hj, !invocations_app, Hct, invocations_logs. exact Ht.
        -- rewrite Ho. destruct incoming; auto.
        -- rewrite Hj, !invocations_app, Hcs, invocations_logs.
           cbn. rewrite Hs. reflexivity.
      * split; [|left; exists r'; repeat split].
        -- rewrite Hj, invocations_call_event. exact Ht.
        -- exact Ho.
        -- exact Hr'.
        -- lia.
        -- rewrite Hj, invocations_call_event. exact Hs.
    + replace ([r] !! S i) with (@None request)
        by (destruct i; reflexivity).
      replace (r :: delete i []) with [r] by (destruct i; reflexivity).
      split; [exact Ht|]. left. exists r. repeat split; auto.
  - destruct Hout as [Hout|Hout]; rewrite Hout.
    + replace (@nil request !! i) with (@None request)
        by (destruct i; reflexivity).
      replace (delete i (@nil request)) with (@nil request)
        by (destruct i; reflexivity).
      split; [exact Ht|]. right. split; [left; reflexivity|exact Hs].
    + destruct i as [|i]; cbn [lookup list_lookup delete list_delete].
      * run_m. destruct (is_error ec); run_m;
          (split; [exact Ht|right; split; [left; reflexivity|exact Hs]]).
      * replace ([req_pending_remove ch bind_handle_unpend] !! S i)
          with (@None request) by (destruct i; reflexivity).
        replace (delete i (@nil request)) with (@nil request)
          by (destruct i; reflexivity).
        split; [exact Ht|]. right.
        split; [right; reflexivity|exact Hs].
Qed.

Lemma tracking_weaken (incoming : bool) (ch : channel_ptr) (s t : nat)
  (bs bt n m : nat) (w : world) :
  n ≤ m → tracking incoming ch s t bs bt n w →
  tracking incoming ch s t bs bt m w.
Proof.
  intros Hle [Ht [(r & Hout & Hr & Hrank & Hs)|H]]; split; auto.
  left. exists r. repeat split; auto. lia.
Qed.

(** [register_channel] sets a registration on track. *)
Lemma register_tracking (w : world) (ch : channel_ptr) (s t : nat) :
  outstanding w = [] → s ≠ t →
  tracking (incoming_ w) ch s t
    (invocations s (journal w)) (invocations t (journal w)) 5
    (exec (register_channel ch (user_handler s) (user_handler t)) w).
Proof.
  intros Hout Hst. pose proof Hst as Hneq. apply Nat.eqb_neq in Hneq.
  unfold tracking. run_m. destruct (stopped_ w); run_m.
  - rewrite Hneq, Nat.eqb_refl, Hout. cbn. split; [reflexivity|].
    right. split; [left|]; reflexivity.
  - destruct (incoming_ w); run_m.
    + rewrite Hout. split; [reflexivity|]. left. eexists.
      split; [reflexivity|]. split; [apply stage_channel_start|].
      split; [cbn; lia|reflexivity].
    + unfold nonzero_pseudo_random. run_m.
      destruct (entropy w); run_m; rewrite Hout;
        (split; [reflexivity|]); left; eexists;
        (split; [reflexivity|]);
        (split; [apply (stage_pend (unpend_handler_of ch s t))|]);
        (split; [cbn; lia|reflexivity]).
Qed.

Lemma tracking_run (incoming : bool) (ch : channel_ptr) (s t : nat)
  (bs bt : nat) (answers : list (nat * code * version)) :
  s ≠ t →
  ∀ n w,
    tracking incoming ch s t bs bt n w →
    tracking incoming ch s t bs bt n (run (completions answers) w).
Proof.
  intros Hst. induction answers as [|[[i ec] v] rest IH]; intros n w Hw.
  - exact Hw.
  - change (run (completions ((i, ec, v) :: rest)) w)
      with (run (completions rest)
              (exec (complete peer_minimum_version i ec v) w)).
    apply IH. eapply tracking_weaken;
      [|apply (tracking_complete _ _ _ _ _ _ _ i ec v _ Hst Hw)].
    destruct i; lia.
Qed.

Lemma tracking_run_first (incoming : bool) (ch : channel_ptr) (s t : nat)
  (bs bt : nat) (answers : list (nat * code * version)) :
  s ≠ t →
  Forall (λ a, a.1.1 = 0) answers →
  ∀ n w,
    tracking incoming ch s t bs bt n w →
    tracking incoming ch s t bs bt (n - length answers)
      (run (completions answers) w).
Proof.
  intros Hst Hall.
  induction Hall as [|[[i ec] v] rest Hi Hall IH]; intros n w Hw.
  - rewrite Nat.sub_0_r. exact Hw.
  - cbn in Hi. subst i.
    change (run (completions ((0, ec, v) :: rest)) w)
      with (run (completions rest)
              (exec (complete peer_minimum_version 0 ec v) w)).
    replace (n - length ((0, ec, v) :: rest))
      with (pred n - length rest) by (cbn; lia).
    apply IH.
    exact (tracking_complete _ _ _ _ _ _ _ 0 ec v _ Hst Hw).
Qed.

(** X8: on every schedule of completions, a registration made when
    nothing else was outstanding signals the started callback exactly once,
    at the moment its sequence ends, and never invokes the stopped
    callback. *)
Theorem started_exactly_once (w : world) (ch : channel_ptr)
  (started_cb stopped_cb : nat) (answers : list (nat * code * version)) :
  outstanding w = [] → started_cb ≠ stopped_cb →
  let w1 :=
    exec (register_channel ch (user_handler started_cb)
            (user_handler stopped_cb)) w in
  let w2 := run (completions answers) w1 in
  invocations started_cb (journal w2) =
    invocations started_cb (journal w) + (if in_progress w2 then 0 else 1) ∧
  invocations stopped_cb (journal w2) = invocations stopped_cb (journal w).
Proof.
  intros Hout Hst. cbv zeta.
  destruct (tracking_run _ _ _ _ _ _ answers Hst _ _
              (register_tracking w ch started_cb stopped_cb Hout Hst))
    as [Ht [(r & Ho & Hr & _ & Hs)|[Ho Hs]]].
  - split; [|exact Ht]. unfold in_progress. rewrite Ho. cbn.
    rewrite (proj1 (stage_is_step _ _ _ Hr)). cbn. lia.
  - split; [|exact Ht]. unfold in_progress.
    destruct Ho as [Ho|Ho]; rewrite Ho; cbn; lia.
Qed.

(** X9: a registration lasts at most five steps: once the request at
    index 0 has been completed five times, whatever the answers, the
    sequence has ended and the started callback has been signaled. *)
Theorem registration_ends (w : world) (ch : channel_ptr)
  (started_cb stopped_cb : nat) (answers : list (nat * code * version)) :
  outstanding w = [] → started_cb ≠ stopped_cb →
  Forall (λ a, a.1.1 = 0) answers → 5 ≤ length answers →
  let w1 :=
    exec (register_channel ch (user_handler started_cb)
            (user_handler stopped_cb)) w in
  let w2 := run (completions answers) w1 in
  in_progress w2 = false ∧
  invocations started_cb (journal w2) =
    S (invocations started_cb (journal w)).
Proof.
  intros Hout Hst Hall Hlen. cbv zeta.
  destruct (tracking_run_first _ _ _ _ _ _ answers Hst Hall _ _
              (register_tracking w ch started_cb stopped_cb Hout Hst))
    as [Ht [(r & Ho & Hr & Hrank & Hs)|[Ho Hs]]].
  - pose proof (proj2 (stage_is_step _ _ _ Hr)). lia.
  - split; [|exact Hs]. unfold in_progress.
    destruct Ho as [Ho|Ho]; rewrite Ho; reflexivity.
Qed.

End session_invariants.

Section session_invariants_witnesses.

Import session observe scenarios.

Lemma blacklisted_spec_witness :
  In "203.0.113.7:8333"%string (blacklists (settings_ idle_session)) ∧
  (blacklisted "203.0.113.7:8333" idle_session).1 = true.
Proof.
  assert (Hin : In "203.0.113.7:8333"%string
                  (blacklists (settings_ idle_session)))
    by (left; reflexivity).
  split; [exact Hin|].
  exact (proj2 (proj2 (blacklisted_spec _ idle_session)) Hin).
Defined.

Lemma session_members_stable_witness :
  forallb (λ a, negb (is_start a)) outbound_accepted = true ∧
  session_kept outbound_session
    (session.run peer_minimum_version outbound_accepted outbound_session).
Proof.
  split; [reflexivity|].
  exact (session_members_stable peer_minimum_version outbound_accepted
           outbound_session eq_refl).
Defined.

Lemma stop_event_stops_session_witness :
  stopped_ idle_session = true ∧
  stopped_
    (exec (network_fire_stop peer_minimum_version service_stopped)
       (exec (start (invoke peer_minimum_version) (user_handler 0))
          idle_session)) = true.
Proof.
  split; [reflexivity|].
  exact (proj1 (stop_event_stops_session peer_minimum_version
                  (user_handler 0) service_stopped idle_session eq_refl)).
Defined.

Lemma register_channel_inbound_witness :
  stopped_ inbound_session = false ∧
  incoming_ inbound_session = true ∧
  emits inbound_session
    (exec (register_channel (invoke peer_minimum_version) 0 (user_handler 1)
             (user_handler 2)) inbound_session)
    [ev_channel_start 0].
Proof.
  split; [reflexivity|]. split; [reflexivity|].
  exact (proj1 (register_channel_inbound peer_minimum_version
                  inbound_session 0 1 2 eq_refl eq_refl)).
Defined.

Lemma pending_refusal_witness :
  is_error (other_error 2) = true ∧
  emits outbound_session
    (exec (respond peer_minimum_version
             (req_pending_store 0
                (bind_handle_pend 0 (unpend_handler_of 0 1 2)))
             (other_error 2) no_version) outbound_session)
    [ev_set_nonce 0 0%Z; ev_pending_remove 0;
     ev_channel_stop 0 (other_error 2); ev_handler 1 (other_error 2)].
Proof.
  split; [reflexivity|].
  exact (proj1 (pending_refusal peer_minimum_version outbound_session 0 1 2
                  (other_error 2) no_version eq_refl)).
Defined.

Lemma handshake_failure_witness :
  is_error (other_error 4) = true ∧
  emits inbound_session
    (exec (respond peer_minimum_version
             (req_protocol_version_start 0
                (bind_handle_handshake 0 (continuation_of true 0 1 2)))
             (other_error 4) no_version) inbound_session)
    (ev_log_debug
       (log_handshake_failure
          (chan_authority (channel_of 0 inbound_session)) (other_error 4))
     :: completion_events true 0 1 2 (other_error 4)).
Proof.
  split; [reflexivity|].
  exact (proj1 (handshake_failure peer_minimum_version true inbound_session
                  0 1 2 (other_error 4) no_version eq_refl)).
Defined.

Lemma registration_frame_witness :
  stage (continuation_of true 0 1 2) 0
    (req_network_store 0 (continuation_of true 0 1 2)) ∧
  1 ≠ 0 ∧
  channel_of 1
    (exec (respond peer_minimum_version
             (req_network_store 0 (continuation_of true 0 1 2))
             success no_version) inbound_session) =
  channel_of 1 inbound_session.
Proof.
  split; [apply stage_store|]. split; [discriminate|].
  exact (proj2 (registration_frame peer_minimum_version inbound_session
                  0 1 2)
           true _ success no_version inbound_session 1
           (stage_store (continuation_of true 0 1 2) 0)
           (Nat.neq_succ_0 0)).
Defined.

Lemma started_exactly_once_witness :
  outstanding outbound_session = [] ∧
  1 ≠ 2 ∧
  (let w1 :=
     exec (register_channel (invoke peer_minimum_version) 0 (user_handler 1)
             (user_handler 2)) outbound_session in
   let w2 := session.run peer_minimum_version (completions accepting) w1 in
   invocations 1 (journal w2) =
     invocations 1 (journal outbound_session) +
     (if in_progress w2 then 0 else 1) ∧
   invocations 2 (journal w2) = invocations 2 (journal outbound_session)).
Proof.
  assert (Hne : 1 ≠ 2) by discriminate.
  split; [reflexivity|]. split; [exact Hne|].
  exact (started_exactly_once peer_minimum_version outbound_session 0 1 2
           accepting eq_refl Hne).
Defined.

Lemma registration_ends_witness :
  outstanding outbound_session = [] ∧
  1 ≠ 2 ∧
  Forall (λ a : nat * code * version, a.1.1 = 0) accepting ∧
  5 ≤ length accepting ∧
  (let w1 :=
     exec (register_channel (invoke peer_minimum_version) 0 (user_handler 1)
             (user_handler 2)) outbound_session in
   let w2 := session.run peer_minimum_version (completions accepting) w1 in
   in_progress w2 = false ∧
   invocations 1 (journal w2) =
     S (invocations 1 (journal outbound_session))).
Proof.
  assert (Hne : 1 ≠ 2) by discriminate.
  assert (Hall : Forall (λ a : nat * code * version, a.1.1 = 0) accepting)
    by (repeat constructor).
  assert (Hlen : 5 ≤ length accepting) by (cbn; lia).
  split; [reflexivity|]. split; [exact Hne|].
  split; [exact Hall|]. split; [exact Hlen|].
  exact (registration_ends peer_minimum_version outbound_session 0 1 2
           accepting eq_refl Hne Hall Hlen).
Defined.

End session_invariants_witnesses.

(** * Further properties of the message subscriber *)

Section message_subscriber_dispatch.

Import message_subscriber.

Variable payload : Type.
Variable from_data : message_type.t → list Byte.byte → payload + code.

Local Abbreviation state := (message_subscriber.state payload).
Local Abbreviation load := (message_subscriber.load payload from_data).

(** Distinct arguments with the same image cannot both survive in a
    duplicate-free [omap]. *)
Lemma omap_NoDup_inj {A B} (f : A → option B) (l : list A) (x y : A)
  (b : B) :
  NoDup (omap f l) → x ∈ l → y ∈ l → f x = Some b → f y = Some b → x = y.
Proof.
  induction l as [|a l IH]; intros Hnd Hx Hy Hfx Hfy.
  - apply elem_of_nil in Hx. contradiction.
  - cbn in Hnd.
    assert (Htail : ∀ z, z ∈ l → f z = Some b → b ∈ omap f l).
    { intros z Hz Hfz. apply list_elem_of_omap. exists z. auto. }
    apply elem_of_cons in Hx as [->|Hx];
      apply elem_of_cons in Hy as [->|Hy]; [reflexivity| | |].
    + rewrite Hfx in Hnd. apply NoDup_cons in Hnd as [Hnot _].
      destruct (Hnot (Htail _ Hy Hfy)).
    + rewrite Hfy in Hnd. apply NoDup_cons in Hnd as [Hnot _].
      destruct (Hnot (Htail _ Hx Hfx)).
    + apply IH; auto. destruct (f a); [|exact Hnd].
      apply NoDup_cons in Hnd as [_ Hnd]. exact Hnd.
Qed.

Lemma kind_of_member (self : message_subscriber) (type : message_type.t)
  (p : subscriber_ptr) :
  subscriber_of self type = Some p → type ∈ kinds.
Proof.
  intros Hp. destruct type; try discriminate Hp; unfold kinds;
    repeat first [apply list_elem_of_here | apply list_elem_of_further].
Qed.

(** [load] of a dispatched kind is the template on that kind's member. *)
Lemma load_relay (self : message_subscriber) (type : message_type.t)
  (p : subscriber_ptr) (stream : list Byte.byte) (st : state) :
  subscriber_of self type = Some p →
  load self type stream st = relay payload from_data type stream p st.
Proof.
  intros Hp. destruct type; try discriminate Hp;
    injection Hp as <-; reflexivity.
Qed.

(** X10: [load] of one of the 21 kinds returns the decoder's outcome
    and delivers it to the handlers waiting on that kind's subscriber,
    leaving nobody waiting there; when the members are distinct, as the
    constructor makes them, the handlers waiting on every other kind stay
    waiting. *)
Theorem load_dispatch (self : message_subscriber) (type : message_type.t)
  (p : subscriber_ptr) (stream : list Byte.byte) (st : state) :
  NoDup (members self) →
  subscriber_of self type = Some p →
  let out := load self type stream st in
  let ec := match from_data type stream with
            | inl _ => success
            | inr e => e
            end in
  let value := match from_data type stream with
               | inl message => Some message
               | inr _ => None
               end in
  out.1 = ec ∧
  deliveries payload out.2 =
    deliveries payload st ++ notify payload ec value (waiting payload p st) ∧
  waiting payload p out.2 = [] ∧
  ∀ type' p',
    subscriber_of self type' = Some p' → type' ≠ type →
    waiting payload p' out.2 = waiting payload p' st.
Proof.
  intros Hnd Hp. cbv zeta. rewrite (load_relay self type p stream st Hp).
  unfold relay.
  assert (Hother : ∀ type' p',
            subscriber_of self type' = Some p' → type' ≠ type → p ≠ p').
  { intros type' p' Hp' Hne ->. apply Hne.
    exact (omap_NoDup_inj (subscriber_of self) kinds type' type p' Hnd
             (kind_of_member self type' p' Hp')
             (kind_of_member self type p' Hp) Hp' Hp). }
  unfold subscriber_relay, visit, mbind, M_bind, mret, M_ret.
  destruct (from_data type stream) as [message|e]; cbn;
    (split; [reflexivity|]); (split; [reflexivity|]); split.
  - unfold waiting. cbn. rewrite list_lookup_alter_eq.
    destruct (subscribers payload st !! p); reflexivity.
  - intros type' p' Hp' Hne. unfold waiting. cbn.
    rewrite list_lookup_alter_ne by exact (Hother type' p' Hp' Hne).
    reflexivity.
  - unfold waiting. cbn. rewrite list_lookup_alter_eq.
    destruct (subscribers payload st !! p); reflexivity.
  - intros type' p' Hp' Hne. unfold waiting. cbn.
    rewrite list_lookup_alter_ne by exact (Hother type' p' Hp' Hne).
    reflexivity.
Qed.

End message_subscriber_dispatch.

Lemma load_dispatch_witness :
  NoDup (message_subscriber.members scenarios.hub) ∧
  message_subscriber.subscriber_of scenarios.hub message_type.ping =
    Some (message_subscriber.ping_subscriber_ scenarios.hub) ∧
  (message_subscriber.load (list Byte.byte) scenarios.raw_bytes
     scenarios.hub message_type.ping [] scenarios.two_waiters).1 =
  match scenarios.raw_bytes message_type.ping [] with
  | inl _ => success
  | inr e => e
  end.
Proof.
  assert (Hnd : NoDup (message_subscriber.members scenarios.hub)).
  { unfold scenarios.hub.
    rewrite (proj1 (construct_members (list Byte.byte) 0
                      (message_subscriber.State (list Byte.byte) [] []))).
    apply NoDup_seq. }
  split; [exact Hnd|]. split; [reflexivity|].
  exact (proj1 (load_dispatch (list Byte.byte) scenarios.raw_bytes
                  scenarios.hub message_type.ping _ [] scenarios.two_waiters
                  Hnd eq_refl)).
Defined.
